(** * CyberSearch: the query-generation core, embedded and verified

    The repository holds two variants of one React component.
    - [src/unnamed/part_000] (terminal v2.5.0): slider-controlled
      [vectorCount], [density], [pageOffset]; the iteration count is floored
      at 1; every URL carries a [start] parameter.
    - [src/App.tsx] (terminal v2.3.0): ten vectors, base density 257, no
      floor on the inner loop bound, no [start] parameter.
    Both share the object [SearchEngineCore] verbatim.

    JavaScript strings are sequences of UTF-16 code units and are modelled
    as [list N]; numbers that the code handles are small integers and are
    modelled as [Z]. *)

From Stdlib Require Import Ascii String DecimalString.
From Stdlib Require Import ZArith NArith Bool Lia List.
Import ListNotations.

Set Implicit Arguments.

(** ** The JavaScript built-ins the component calls *)

Module JS.

Definition codeunit := N.
Definition jsstring := list codeunit.

(** A string literal of the source (all literals of the source are ASCII). *)
Definition lit (s : string) : jsstring :=
  List.map N_of_ascii (list_ascii_of_string s).

Fixpoint jseq (a b : jsstring) : bool :=
  match a, b with
  | [], [] => true
  | x :: a', y :: b' => N.eqb x y && jseq a' b'
  | _, _ => false
  end.

Definition isLead (c : codeunit) : bool := (N.leb 0xD800 c) && (N.leb c 0xDBFF).
Definition isTrail (c : codeunit) : bool := (N.leb 0xDC00 c) && (N.leb c 0xDFFF).
Definition isSurrogate (c : codeunit) : bool := isLead c || isTrail c.

(** [for (const char of str)]: the string iterator yields code points, a
    lead surrogate followed by a trail surrogate as one two-unit string and
    every other code unit on its own. *)
Fixpoint iterate (s : jsstring) : list jsstring :=
  match s with
  | [] => []
  | c :: rest =>
      if isLead c then
        match rest with
        | d :: rest' =>
            if isTrail d then [c; d] :: iterate rest' else [c] :: iterate rest
        | [] => [[c]]
        end
      else [c] :: iterate rest
  end.

(** [String.prototype.isWellFormed]: no unpaired surrogate. *)
Fixpoint isWellFormed (s : jsstring) : bool :=
  match s with
  | [] => true
  | c :: rest =>
      if isTrail c then false
      else if isLead c then
        match rest with
        | d :: rest' => isTrail d && isWellFormed rest'
        | [] => false
        end
      else isWellFormed rest
  end.

(** [s.replace(/[class]/g, f)] for a character class of a regular
    expression without the [u] flag: the match runs code unit by code
    unit. *)
Definition replaceClass (cls : codeunit -> bool) (rep : codeunit -> jsstring)
    (s : jsstring) : jsstring :=
  flat_map (fun c => if cls c then rep c else [c]) s.

(** WhiteSpace and LineTerminator code points, the set [trim] strips. *)
Definition isWhiteSpace (c : codeunit) : bool :=
  N.eqb c 0x09 || N.eqb c 0x0A || N.eqb c 0x0B || N.eqb c 0x0C || N.eqb c 0x0D
  || N.eqb c 0x20 || N.eqb c 0xA0 || N.eqb c 0x1680
  || (N.leb 0x2000 c && N.leb c 0x200A)
  || N.eqb c 0x2028 || N.eqb c 0x2029 || N.eqb c 0x202F || N.eqb c 0x205F
  || N.eqb c 0x3000 || N.eqb c 0xFEFF.

Fixpoint trimStart (s : jsstring) : jsstring :=
  match s with
  | [] => []
  | c :: rest => if isWhiteSpace c then trimStart rest else s
  end.

Definition trimEnd (s : jsstring) : jsstring := rev (trimStart (rev s)).

Definition trim (s : jsstring) : jsstring := trimEnd (trimStart s).

(** [s.split(sep)] for a separator of one code unit: [''.split(' ')] is
    [['']], and every occurrence of the separator starts a new segment. *)
Fixpoint split (sep : codeunit) (s : jsstring) : list jsstring :=
  match s with
  | [] => [[]]
  | c :: rest =>
      if N.eqb c sep then [] :: split sep rest
      else match split sep rest with
           | seg :: segs => (c :: seg) :: segs
           | [] => [[c]]
           end
  end.

Fixpoint startsWith (s pat : jsstring) : bool :=
  match pat, s with
  | [], _ => true
  | p :: pat', c :: s' => N.eqb p c && startsWith s' pat'
  | _ :: _, [] => false
  end.

(** [s.replace(pat, rep)] for a string pattern: the first occurrence only.
    The replacement strings of this program are decimal numerals, so the
    [$] patterns of a replacement string never arise. *)
Fixpoint replace (pat rep s : jsstring) : jsstring :=
  match s with
  | [] => if startsWith [] pat then rep else []
  | c :: rest =>
      if startsWith s pat then rep ++ skipn (length pat) s
      else c :: replace pat rep rest
  end.

(** The bounds [String.prototype.slice] resolves [start] and [end] to:
    a negative index counts from the end and is clamped at 0, a
    non-negative one is clamped at the length. *)
Definition sliceIndex (len idx : Z) : Z :=
  if (idx <? 0)%Z then Z.max (len + idx) 0 else Z.min idx len.

Definition slice (s : jsstring) (start end_ : Z) : jsstring :=
  let len := Z.of_nat (length s) in
  let from := sliceIndex len start in
  let to := sliceIndex len end_ in
  firstn (Z.to_nat (to - from)) (skipn (Z.to_nat from) s).

(** [n.toString()] and the interpolation of a number that is an integer:
    its decimal numeral, with a minus sign when negative (the notation of
    JavaScript for integers of magnitude below 10^21, far above what the
    counters and sliders reach). *)
Definition numberToString (z : Z) : jsstring :=
  lit (NilZero.string_of_int (Z.to_int z)).

(** *** encodeURIComponent *)

Definition isAlphaNum (c : codeunit) : bool :=
  (N.leb 48 c && N.leb c 57) || (N.leb 65 c && N.leb c 90)
  || (N.leb 97 c && N.leb c 122).

(** uriUnreserved: alphanumerics and the marks [- _ . ! ~ * ' ( )]. *)
Definition isUnreserved (c : codeunit) : bool :=
  isAlphaNum c
  || N.eqb c 45 || N.eqb c 95 || N.eqb c 46 || N.eqb c 33 || N.eqb c 126
  || N.eqb c 42 || N.eqb c 39 || N.eqb c 40 || N.eqb c 41.

Definition hexDigit (n : N) : codeunit :=
  if N.ltb n 10 then (48 + n)%N else (55 + n)%N.

Definition percent (octet : N) : jsstring :=
  [37%N; hexDigit (octet / 16); hexDigit (octet mod 16)].

Definition utf8 (cp : N) : list N :=
  if N.ltb cp 0x80 then [cp]
  else if N.ltb cp 0x800 then [0xC0 + cp / 64; 0x80 + cp mod 64]%N
  else if N.ltb cp 0x10000 then
    [0xE0 + cp / 4096; 0x80 + (cp / 64) mod 64; 0x80 + cp mod 64]%N
  else
    [0xF0 + cp / 262144; 0x80 + (cp / 4096) mod 64;
     0x80 + (cp / 64) mod 64; 0x80 + cp mod 64]%N.

Definition escapeCodePoint (cp : N) : jsstring := flat_map percent (utf8 cp).

Definition pairCodePoint (lead trail : codeunit) : N :=
  (0x10000 + (lead - 0xD800) * 0x400 + (trail - 0xDC00))%N.

(** [None] stands for the URIError thrown on an unpaired surrogate. *)
Fixpoint encodeURIComponent (s : jsstring) : option jsstring :=
  match s with
  | [] => Some []
  | c :: rest =>
      if isUnreserved c then option_map (cons c) (encodeURIComponent rest)
      else if isTrail c then None
      else if isLead c then
        match rest with
        | d :: rest' =>
            if isTrail d
            then option_map (app (escapeCodePoint (pairCodePoint c d)))
                            (encodeURIComponent rest')
            else None
        | [] => None
        end
      else option_map (app (escapeCodePoint c)) (encodeURIComponent rest)
  end.

End JS.

Import JS.

(** ** SearchEngineCore (identical in both files) *)

Module SearchEngineCore.

Definition isControl (c : codeunit) : bool := N.leb c 0x1F || N.eqb c 0x7F.
Definition isSingleCurly (c : codeunit) : bool := N.eqb c 0x2018 || N.eqb c 0x2019.
Definition isDoubleCurly (c : codeunit) : bool := N.eqb c 0x201C || N.eqb c 0x201D.

Definition sanitizeInput (raw : jsstring) : jsstring :=
  trim
    (replaceClass isDoubleCurly (fun _ => [34%N])
       (replaceClass isSingleCurly (fun _ => [39%N])
          (replaceClass isControl (fun _ => []) raw))).

(** One turn of the loop body of [isSyntaxSafe] on the counter. *)
Definition bump (char : jsstring) (stack : Z) : Z :=
  let stack := if jseq char (lit "(") then (stack + 1)%Z else stack in
  if jseq char (lit ")") then (stack - 1)%Z else stack.

Fixpoint isSyntaxSafe_loop (chars : list jsstring) (stack : Z) : bool :=
  match chars with
  | [] => Z.eqb stack 0
  | char :: rest =>
      let stack := bump char stack in
      if (stack <? 0)%Z then false else isSyntaxSafe_loop rest stack
  end.

Definition isSyntaxSafe (str : jsstring) : bool :=
  isSyntaxSafe_loop (iterate str) 0%Z.

Definition isParen (c : codeunit) : bool := N.eqb c 40 || N.eqb c 41.

Definition backslash : codeunit := 92%N.

(** [term.replace(/([()])/g, "\\$1")] *)
Definition escapeParens (term : jsstring) : jsstring :=
  replaceClass isParen (fun c => [backslash; c]) term.

Definition processTerm (term : jsstring) : jsstring :=
  if isSyntaxSafe term then term else escapeParens term.

End SearchEngineCore.

Import SearchEngineCore.


(** ** What the two components share *)

Inductive LogType := system | user | info | warning | success.

(** A log entry; [id] and [timestamp] come from the clock and from
    [Math.random] and carry no content of the algorithm. *)
Record LogEntry := mkLog { message : jsstring; type : LogType }.

(** How a call of [executeSearch] ends: it returns, or the URIError of
    [encodeURIComponent] leaves it. *)
Inductive completion := Returned | ThrewURIError.

Definition space : codeunit := 32%N.

Definition template : jsstring := lit "site:*.*.%NUM%.* |".

(** [for (let ii = 0; ii < bound; ii++) queryPart += template.replace(...)],
    entered with the given [ii] and [queryPart] and [n] turns to go. *)
Fixpoint siteLoop (n : nat) (ii : Z) (queryPart : jsstring) : jsstring :=
  match n with
  | O => queryPart
  | S n' =>
      siteLoop n' (ii + 1)%Z
        (queryPart ++ replace (lit "%NUM%") (numberToString ii) template)
  end.

(** An integer bound [b] lets [ii = 0; ii < b; ii++] run [max b 0] turns. *)
Definition siteClauses (bound : Z) : jsstring :=
  siteLoop (Z.to_nat bound) 0%Z [].

Definition wordCountOf (processedTerm : jsstring) : Z :=
  Z.of_nat (length (split space processedTerm)).

Definition finalQueryOf (processedTerm queryPart : jsstring) : jsstring :=
  lit "(" ++ processedTerm ++ lit ") (" ++ queryPart ++ lit ")".

(** ** src/unnamed/part_000: the parameterised component (v2.5.0) *)

Module Part000.

Record State := mkState {
  input : jsstring;
  isBooting : bool;
  logs : list LogEntry;
  vectors : list jsstring;
  isExecuting : bool;
  vectorCount : Z;
  density : Z;
  pageOffset : Z
}.

Definition addLog (msg : jsstring) (ty : LogType) (st : State) : State :=
  mkState (input st) (isBooting st) (logs st ++ [mkLog msg ty]) (vectors st)
    (isExecuting st) (vectorCount st) (density st) (pageOffset st).

Definition setVectors (v : list jsstring) (st : State) : State :=
  mkState (input st) (isBooting st) (logs st) v
    (isExecuting st) (vectorCount st) (density st) (pageOffset st).

Definition setIsExecuting (b : bool) (st : State) : State :=
  mkState (input st) (isBooting st) (logs st) (vectors st)
    b (vectorCount st) (density st) (pageOffset st).

Definition decayFactorOf (processedTerm : jsstring) : Z :=
  Z.max (32 - wordCountOf processedTerm) 1.

Definition iterationsOf (density decayFactor i : Z) : Z :=
  Z.max (density - i * decayFactor) 1.

Definition queryPartOf (iterations : Z) : jsstring :=
  slice (siteClauses iterations) 0 (-1).

Definition searchUrlOf (finalQuery : jsstring) (pageOffset : Z) : option jsstring :=
  option_map
    (fun q => lit "https://www.google.com/search?q=" ++ q
              ++ lit "&start=" ++ numberToString (pageOffset * 10))
    (encodeURIComponent finalQuery).

(** The body of [for (let i = 0; i < vectorCount; i++)] at index [i]. *)
Definition vectorAt (processedTerm : jsstring) (density pageOffset decayFactor i : Z)
    : option jsstring :=
  let iterations := iterationsOf density decayFactor i in
  let queryPart := queryPartOf iterations in
  let finalQuery := finalQueryOf processedTerm queryPart in
  searchUrlOf finalQuery pageOffset.

Fixpoint vectorLoop (processedTerm : jsstring) (density pageOffset decayFactor : Z)
    (n : nat) (i : Z) (generatedUrls : list jsstring) : option (list jsstring) :=
  match n with
  | O => Some generatedUrls
  | S n' =>
      match vectorAt processedTerm density pageOffset decayFactor i with
      | Some searchUrl =>
          vectorLoop processedTerm density pageOffset decayFactor n' (i + 1)%Z
            (generatedUrls ++ [searchUrl])
      | None => None
      end
  end.

(** The block between the comments [ALGORITHM v2.5.0] of [executeSearch];
    the specification calls it buildVectors. *)
Definition buildVectors (processedTerm : jsstring) (vectorCount density pageOffset : Z)
    : option (list jsstring) :=
  let decayFactor := decayFactorOf processedTerm in
  vectorLoop processedTerm density pageOffset decayFactor
    (Z.to_nat vectorCount) 0%Z [].

(** [windowOpen] is the host's answer to [window.open]: [true] when a
    window was opened. The timer that clears [isExecuting] after 300 ms is
    outside the call. *)
Definition executeSearch (windowOpen : option jsstring -> bool) (st : State)
    : State * completion :=
  if jseq (trim (input st)) [] || isBooting st then (st, Returned)
  else
    let st := setIsExecuting true st in
    let rawTerm := input st in
    let cleanTerm := sanitizeInput rawTerm in
    let isSafe := isSyntaxSafe cleanTerm in
    let processedTerm := processTerm cleanTerm in
    let st := addLog (lit "CMD: EXEC_V_SEARCH [" ++ rawTerm ++ lit "]") user st in
    let st := if negb (jseq rawTerm cleanTerm)
              then addLog (lit "SANITIZER: NON-PRINTABLE CHARS REMOVED") warning st
              else st in
    let st := if negb isSafe
              then addLog (lit "SYNTAX_ALERT: UNBALANCED SCOPES DETECTED - AUTO_ESCAPE ACTIVE")
                     warning st
              else st in
    let st := if (600 <? density st)%Z
              then addLog (lit "HTTP_414_RISK: URL DENSITY EXCEEDS RECOMMENDED LIMITS")
                     warning st
              else st in
    match buildVectors processedTerm (vectorCount st) (density st) (pageOffset st) with
    | None => (st, ThrewURIError)
    | Some generatedUrls =>
        let st := setVectors generatedUrls st in
        let st := addLog (lit "COMPUTATION SUCCESS: " ++ numberToString (vectorCount st)
                          ++ lit " VECTORS READY") success st in
        let st := addLog (lit "REDIRECTING TO PRIMARY VECTOR...") info st in
        let win := windowOpen (nth_error generatedUrls 0) in
        let st := if negb win
                  then addLog (lit "BROWSER_BLOCK: POPUP PREVENTED. MANUAL LAUNCH REQUIRED.")
                         warning st
                  else st in
        (st, Returned)
    end.

End Part000.

(** ** src/App.tsx: the fixed-parameter component (v2.3.0) *)

Module AppTsx.

Record State := mkState {
  input : jsstring;
  isBooting : bool;
  logs : list LogEntry;
  vectors : list jsstring
}.

Definition addLog (msg : jsstring) (ty : LogType) (st : State) : State :=
  mkState (input st) (isBooting st) (logs st ++ [mkLog msg ty]) (vectors st).

Definition setVectors (v : list jsstring) (st : State) : State :=
  mkState (input st) (isBooting st) (logs st) v.

Definition setInput (s : jsstring) (st : State) : State :=
  mkState s (isBooting st) (logs st) (vectors st).

Definition maxUrls : Z := 10.

(** [let o = Math.max(32 - wordCount, 1)] *)
Definition oOf (processedTerm : jsstring) : Z :=
  Z.max (32 - wordCountOf processedTerm) 1.

(** The bound of the inner loop, [257 - (i * o)]: no floor. *)
Definition loopBound (o i : Z) : Z := 257 - i * o.

Definition queryPartOf (o i : Z) : jsstring :=
  slice (siteClauses (loopBound o i)) 0 (-1).

Definition vectorAt (processedTerm : jsstring) (o i : Z) : option jsstring :=
  let queryPart := queryPartOf o i in
  let finalQuery := finalQueryOf processedTerm queryPart in
  option_map (fun q => lit "https://www.google.com/search?q=" ++ q)
    (encodeURIComponent finalQuery).

Fixpoint vectorLoop (processedTerm : jsstring) (o : Z)
    (n : nat) (i : Z) (generatedUrls : list jsstring) : option (list jsstring) :=
  match n with
  | O => Some generatedUrls
  | S n' =>
      match vectorAt processedTerm o i with
      | Some url => vectorLoop processedTerm o n' (i + 1)%Z (generatedUrls ++ [url])
      | None => None
      end
  end.

(** The block between the comments [PRESERVED LOGIC CORE]. *)
Definition generateUrls (processedTerm : jsstring) : option (list jsstring) :=
  vectorLoop processedTerm (oOf processedTerm) (Z.to_nat maxUrls) 0%Z [].

Definition executeSearch (windowOpen : option jsstring -> bool) (st : State)
    : State * completion :=
  if jseq (trim (input st)) [] || isBooting st then (st, Returned)
  else
    let rawTerm := input st in
    let cleanTerm := sanitizeInput rawTerm in
    let isSafe := isSyntaxSafe cleanTerm in
    let processedTerm := processTerm cleanTerm in
    let st := addLog (lit "CMD: EXECUTE SEARCH [" ++ rawTerm ++ lit "]") user st in
    let st := if negb (jseq rawTerm cleanTerm)
              then addLog (lit "AUTO-CLEAN: REMOVED NON-PRINTABLE CHARS") warning st
              else st in
    let st := if negb isSafe
              then addLog (lit "SYNTAX WARNING: UNBALANCED PARENTHESES ENCOUNTERED") warning st
              else st in
    match generateUrls processedTerm with
    | None => (st, ThrewURIError)
    | Some generatedUrls =>
        let st := setVectors generatedUrls st in
        let st := addLog (lit "CALCULATION COMPLETE: 10 VECTORS GENERATED") success st in
        let st := addLog (lit "PRIMARY VECTOR LAUNCHING...") info st in
        let win := windowOpen (nth_error generatedUrls 0) in
        let st := if negb win
                  then addLog (lit "BLOCK ALERT: BROWSER PREVENTED AUTO-LAUNCH. USE DATA CELLS BELOW.")
                         warning st
                  else st in
        (setInput [] st, Returned)
    end.

End AppTsx.


(** * Notions the properties are stated with *)

Definition openParen : codeunit := 40%N.
Definition closeParen : codeunit := 41%N.

(** The depth counter of the specification: +1 at an opening parenthesis,
    -1 at a closing one, every other character ignored. *)
Definition depthStep (c : codeunit) : Z :=
  if N.eqb c openParen then 1%Z else if N.eqb c closeParen then (-1)%Z else 0%Z.

Fixpoint depth (s : jsstring) : Z :=
  match s with
  | [] => 0%Z
  | c :: rest => (depthStep c + depth rest)%Z
  end.

(** "Never went negative and is exactly 0 at the end", in the words of the
    specification: every prefix has a non-negative depth, the whole string
    has depth 0. *)
Definition balanced (s : jsstring) : Prop :=
  (forall n, (0 <= depth (firstn n s))%Z) /\ depth s = 0%Z.

(** The loop of [isSyntaxSafe] run over code units instead of code points. *)
Fixpoint scan (s : jsstring) (stack : Z) : bool :=
  match s with
  | [] => Z.eqb stack 0
  | c :: rest =>
      let stack := (stack + depthStep c)%Z in
      if (stack <? 0)%Z then false else scan rest stack
  end.

Definition parenCount (s : jsstring) : nat := length (filter isParen s).

(** Drops a backslash that stands directly before a parenthesis. *)
Fixpoint unescape (s : jsstring) : jsstring :=
  match s with
  | [] => []
  | b :: rest =>
      if N.eqb b backslash then
        match rest with
        | p :: rest' => if isParen p then p :: unescape rest' else b :: unescape rest
        | [] => [b]
        end
      else b :: unescape rest
  end.

Definition headKept (s : jsstring) : Prop :=
  match s with [] => True | c :: _ => isWhiteSpace c = false end.

(** A code unit the three replacements of [sanitizeInput] leave alone. *)
Definition settled (c : codeunit) : Prop :=
  isControl c = false /\ isSingleCurly c = false /\ isDoubleCurly c = false.

(** The fragment the template yields for the index [ii]. *)
Definition fragment (ii : Z) : jsstring :=
  lit "site:*.*." ++ numberToString ii ++ lit ".* |".

(** The indices [ii], [ii + 1], ..., [ii + n - 1]. *)
Fixpoint upto (n : nat) (ii : Z) : list Z :=
  match n with
  | O => []
  | S n' => ii :: upto n' (ii + 1)%Z
  end.

(** The index a call of [slice] asks for, before [slice] clamps it into
    the string: a negative argument counts from the end of the string. *)
Definition sliceRequest (len idx : Z) : Z :=
  if (idx <? 0)%Z then (len + idx)%Z else idx.


Definition plain (c : codeunit) : Prop := isSurrogate c = false.

Definition returns (A : Type) (o : option A) : bool :=
  match o with Some _ => true | None => false end.

(** The shape both vector loops have: [n] turns from index [i], each turn
    pushing the URL of its index or leaving by the exception. *)
Fixpoint pushLoop (body : Z -> option jsstring) (n : nat) (i : Z)
    (generatedUrls : list jsstring) : option (list jsstring) :=
  match n with
  | O => Some generatedUrls
  | S n' =>
      match body i with
      | Some url => pushLoop body n' (i + 1)%Z (generatedUrls ++ [url])
      | None => None
      end
  end.

(** The density-risk diagnostic as part_000 logs it. *)
Definition densityRisk : LogEntry :=
  mkLog (lit "HTTP_414_RISK: URL DENSITY EXCEEDS RECOMMENDED LIMITS") warning.



(** * The rest of the components *)

(** ** src/App.tsx, second document: the first terminal (v2.1.0, kernel 1.3.37)

    No sanitizer and no syntax check: the term is the trimmed input. The
    log starts with two system entries; the answer of [window.open] is not
    looked at. *)

Module AppTsxV21.

Record State := mkState {
  input : jsstring;
  logs : list LogEntry
}.

Definition initialState : State :=
  mkState [] [mkLog (lit "SYSTEM CORE ONLINE") system;
              mkLog (lit "ORIGINAL PATTERN LOGIC LOADED") system].

Definition addLog (msg : jsstring) (ty : LogType) (st : State) : State :=
  mkState (input st) (logs st ++ [mkLog msg ty]).

Definition setInput (s : jsstring) (st : State) : State :=
  mkState s (logs st).

Definition maxUrls : Z := 10.

Definition oOf (term : jsstring) : Z :=
  Z.max (32 - Z.of_nat (length (split space term))) 1.

Definition vectorAt (term : jsstring) (o i : Z) : option jsstring :=
  let queryPart := slice (siteClauses (257 - i * o)) 0 (-1) in
  let finalQuery := lit "(" ++ term ++ lit ") (" ++ queryPart ++ lit ")" in
  option_map (fun q => lit "https://www.google.com/search?q=" ++ q)
    (encodeURIComponent finalQuery).

Fixpoint vectorLoop (term : jsstring) (o : Z)
    (n : nat) (i : Z) (urls : list jsstring) : option (list jsstring) :=
  match n with
  | O => Some urls
  | S n' =>
      match vectorAt term o i with
      | Some url => vectorLoop term o n' (i + 1)%Z (urls ++ [url])
      | None => None
      end
  end.

Definition generateUrls (term : jsstring) : option (list jsstring) :=
  vectorLoop term (oOf term) (Z.to_nat maxUrls) 0%Z [].

Definition executeSearch (st : State) : State * completion :=
  let term := trim (input st) in
  if jseq term [] then (st, Returned)
  else
    let st := addLog (lit "INITIALIZING SEARCH: " ++ term) user st in
    match generateUrls term with
    | None => (st, ThrewURIError)
    | Some urls =>
        let st := addLog (lit "GENERATED " ++ numberToString (Z.of_nat (length urls))
                          ++ lit " COMPLEX PATTERNS") info st in
        let st := addLog (lit "LAUNCHING PORTAL 1...") info st in
        let st := if (1 <? Z.of_nat (length urls))%Z
                  then addLog (lit "HINT: SYSTEM PREPARED 10 VARIANTS. PORTAL 1 IS ACTIVE.")
                         info st
                  else st in
        (setInput [] st, Returned)
    end.

(** [if (e.key === 'Enter') executeSearch()] *)
Definition handleKeyPress (key : jsstring) (st : State) : State * completion :=
  if jseq key (lit "Enter") then executeSearch st else (st, Returned).

End AppTsxV21.

(** ** The boot sequence of part_000

    [runSequence idx] logs entry [idx] and arms the timer for [idx + 1], or,
    past the last entry, ends the boot. A run is the state together with
    the index the armed timer will call [runSequence] with, if a timer is
    armed. *)

Module Part000Boot.

Definition setIsBooting (b : bool) (st : Part000.State) : Part000.State :=
  Part000.mkState (Part000.input st) b (Part000.logs st) (Part000.vectors st)
    (Part000.isExecuting st) (Part000.vectorCount st) (Part000.density st)
    (Part000.pageOffset st).

Definition sequence : list (jsstring * LogType) :=
  [(lit "SYSTEM_RELOAD: VERCEL CLOUD DEPLOYMENT CONTEXT...", system);
   (lit "HEURISTIC ENGINE v2.5.0 LOADED [STABLE]...", system);
   (lit "DECAY ALGORITHM SYNCHRONIZED. CPU_CORE: ACTIVE.", system);
   (lit "READY. AWAITING OPERATOR INPUT.", success)].

Definition runSequence (idx : nat) (st : Part000.State) : Part000.State * option nat :=
  match nth_error sequence idx with
  | Some (msg, ty) => (Part000.addLog msg ty st, Some (idx + 1)%nat)
  | None => (setIsBooting false st, None)
  end.

(** The effect on mount: [runSequence(0)]. *)
Definition mount (st : Part000.State) : Part000.State * option nat :=
  runSequence 0 st.

(** The armed timer fires. *)
Definition fire (run : Part000.State * option nat) : Part000.State * option nat :=
  match snd run with
  | Some idx => runSequence idx (fst run)
  | None => run
  end.

(** The initial state of the component: the [useState] defaults. *)
Definition initialState : Part000.State :=
  Part000.mkState [] true [] [] false 10 257 0.

(** [if (e.key === 'Enter') executeSearch()] *)
Definition handleKeyPress (windowOpen : option jsstring -> bool) (key : jsstring)
    (st : Part000.State) : Part000.State * completion :=
  if jseq key (lit "Enter") then Part000.executeSearch windowOpen st else (st, Returned).

End Part000Boot.

(** ** Further notions the properties are stated with *)

(** No white space at either end. *)
Definition trimmed (s : jsstring) : Prop := headKept s /\ headKept (rev s).

Definition spaceCount (s : jsstring) : nat :=
  length (filter (fun c => N.eqb c space) s).

(** A code unit is a 16-bit number. *)
Definition is16bit (c : codeunit) : Prop := (c < 65536)%N.

(** What [encodeURIComponent] writes: unreserved characters and the
    percent sign. *)
Definition isComponentChar (c : codeunit) : bool := isUnreserved c || N.eqb c 37.

(** What a generated URL is written with: the above and [: / ? = &]. *)
Definition isUrlChar (c : codeunit) : bool :=
  isComponentChar c || N.eqb c 58 || N.eqb c 47 || N.eqb c 63 || N.eqb c 61
  || N.eqb c 38.

Definition optApp (a b : option jsstring) : option jsstring :=
  match a, b with
  | Some x, Some y => Some (x ++ y)
  | _, _ => None
  end.

(** The percent-encoded fragment of index [ii]. *)
Definition encodedFragment (ii : Z) : jsstring :=
  lit "site%3A*.*." ++ numberToString ii ++ lit ".*%20%7C".

(** The percent-encoded clause string of [iterations] turns, [iterations]
    at least 1: the last fragment lacks its bar. *)
Definition encodedClause (iterations : Z) : jsstring :=
  concat (map encodedFragment (upto (Z.to_nat (iterations - 1)) 0%Z))
  ++ lit "site%3A*.*." ++ numberToString (iterations - 1) ++ lit ".*%20".

(** The diagnostics of part_000 besides the density risk. *)
Definition sanitizerWarning : LogEntry :=
  mkLog (lit "SANITIZER: NON-PRINTABLE CHARS REMOVED") warning.

Definition syntaxAlert : LogEntry :=
  mkLog (lit "SYNTAX_ALERT: UNBALANCED SCOPES DETECTED - AUTO_ESCAPE ACTIVE") warning.

Definition popupWarning : LogEntry :=
  mkLog (lit "BROWSER_BLOCK: POPUP PREVENTED. MANUAL LAUNCH REQUIRED.") warning.

(** The first [n] entries of the boot sequence as the log holds them. *)
Definition bootEntries (n : nat) : list LogEntry :=
  map (fun e => mkLog (fst e) (snd e)) (firstn n Part000Boot.sequence).

(** * Verification *)

(** ** Tactics and list facts used throughout *)

(** Turns boolean tests on code units into linear arithmetic. *)
Ltac unit_arith :=
  repeat match goal with
         | H : _ && _ = true |- _ => apply andb_true_iff in H; destruct H
         | H : _ || _ = false |- _ => apply orb_false_iff in H; destruct H
         | H : N.leb _ _ = true |- _ => apply N.leb_le in H
         | H : N.leb _ _ = false |- _ => apply N.leb_gt in H
         | H : N.eqb _ _ = true |- _ => apply N.eqb_eq in H
         | H : N.eqb _ _ = false |- _ => apply N.eqb_neq in H
         | H : N.ltb _ _ = true |- _ => apply N.ltb_lt in H
         | H : N.ltb _ _ = false |- _ => apply N.ltb_ge in H
         end;
  try lia.

Ltac case_test t := let E := fresh "E" in destruct t eqn:E.

(** Reduces the field accesses on the states [Part000.executeSearch] builds. *)
Ltac run_fields :=
  cbn [negb fst snd Part000.vectors Part000.logs Part000.addLog Part000.setVectors
       Part000.setIsExecuting Part000.input Part000.isBooting Part000.isExecuting
       Part000.vectorCount Part000.density Part000.pageOffset].

Lemma list_pair_ind (A : Type) (P : list A -> Prop) :
  P [] -> (forall a, P [a]) ->
  (forall a b l, P l -> P (b :: l) -> P (a :: b :: l)) ->
  forall l, P l.
Proof.
  intros H0 H1 H2 l.
  assert (both : P l /\ forall a, P (a :: l)).
  { induction l as [|b l [IHl IHcons]].
    - split; [exact H0 | exact H1].
    - split; [apply IHcons | intro a; apply H2; [exact IHl | apply IHcons]]. }
  exact (proj1 both).
Qed.

(** ** The built-ins on sample strings *)

Example encodeURIComponent_samples :
  encodeURIComponent (lit "(a b) (site:*.*.0.* |x)")
  = Some (lit "(a%20b)%20(site%3A*.*.0.*%20%7Cx)") /\
  encodeURIComponent (lit "a\)b\(") = Some (lit "a%5C)b%5C(") /\
  encodeURIComponent [0xE9; 0x20AC]%N = Some (lit "%C3%A9%E2%82%AC") /\
  encodeURIComponent [0xD83D; 0xDE00]%N = Some (lit "%F0%9F%98%80") /\
  encodeURIComponent [0xD83D; 0x41]%N = None /\
  encodeURIComponent [0xDE00]%N = None.
Proof. repeat split; vm_compute; reflexivity. Qed.

Example string_builtins_samples :
  split space (lit "a b  c") = [lit "a"; lit "b"; lit ""; lit "c"] /\
  split space (lit "") = [lit ""] /\
  slice (lit "abc") 0 (-1) = lit "ab" /\
  slice (lit "") 0 (-1) = lit "" /\
  replace (lit "%NUM%") (numberToString 12) template = lit "site:*.*.12.* |" /\
  numberToString 90 = lit "90" /\
  trim ([0x20; 0x09; 0xA0]%N ++ lit "a b" ++ [0x0A; 0xFEFF; 0x3000]%N) = lit "a b" /\
  iterate [0x28; 0xD83D; 0xDE00; 0xD83D; 0x29]%N
  = [[0x28]; [0xD83D; 0xDE00]; [0xD83D]; [0x29]]%N.
Proof. repeat split; vm_compute; reflexivity. Qed.

Example sanitizeInput_samples :
  sanitizeInput ([0x20; 0x2018]%N ++ lit "a" ++ [0x07; 0x2019; 0x201C]%N ++ lit "b"
                 ++ [0x201D; 0x7F; 0x20]%N)
  = [39; 97; 39; 34; 98; 34]%N /\
  processTerm (lit "a)b(") = [97; 92; 41; 98; 92; 40]%N /\
  processTerm (lit "(a(b)c)") = lit "(a(b)c)".
Proof. repeat split; vm_compute; reflexivity. Qed.

(** ** The syntax checker scans code units *)

Lemma bump_unit c k : bump [c] k = (k + depthStep c)%Z.
Proof.
  unfold bump, depthStep, openParen, closeParen. cbn.
  rewrite !andb_true_r.
  case_test (N.eqb c 40); case_test (N.eqb c 41); unit_arith.
Qed.

Lemma bump_pair c d k : bump [c; d] k = k.
Proof. unfold bump. cbn. rewrite !andb_false_r. reflexivity. Qed.

Lemma depthStep_lead c : isLead c = true -> depthStep c = 0%Z.
Proof.
  unfold isLead, depthStep, openParen, closeParen. intro H.
  case_test (N.eqb c 40); case_test (N.eqb c 41); unit_arith.
Qed.

Lemma depthStep_trail c : isTrail c = true -> depthStep c = 0%Z.
Proof.
  unfold isTrail, depthStep, openParen, closeParen. intro H.
  case_test (N.eqb c 40); case_test (N.eqb c 41); unit_arith.
Qed.

Lemma loop_iterate_scan s :
  forall k, isSyntaxSafe_loop (iterate s) k = scan s k.
Proof.
  induction s as [|a|a b l IHl IHbl] using list_pair_ind; intro k.
  - reflexivity.
  - cbn [iterate]. destruct (isLead a); cbn [isSyntaxSafe_loop scan];
      rewrite bump_unit; reflexivity.
  - cbn [iterate]. destruct (isLead a) eqn:La.
    + destruct (isTrail b) eqn:Tb.
      * cbn [isSyntaxSafe_loop scan]. rewrite bump_pair, IHl.
        rewrite (depthStep_lead a La), (depthStep_trail b Tb), !Z.add_0_r.
        destruct (k <? 0)%Z; reflexivity.
      * change (isSyntaxSafe_loop ([a] :: iterate (b :: l)) k = scan (a :: b :: l) k).
        cbn [isSyntaxSafe_loop]. rewrite bump_unit, IHbl. reflexivity.
    + change (isSyntaxSafe_loop ([a] :: iterate (b :: l)) k = scan (a :: b :: l) k).
      cbn [isSyntaxSafe_loop]. rewrite bump_unit, IHbl. reflexivity.
Qed.

Lemma isSyntaxSafe_scan s : isSyntaxSafe s = scan s 0%Z.
Proof. apply loop_iterate_scan. Qed.

Lemma scan_spec s :
  forall k, (0 <= k)%Z ->
    (scan s k = true <->
     (forall n, (0 <= k + depth (firstn n s))%Z) /\ (k + depth s = 0)%Z).
Proof.
  induction s as [|c rest IH]; intros k Hk.
  - cbn [scan depth]. rewrite Z.eqb_eq. split.
    + intro; subst. split; [intro n; destruct n; cbn; lia | lia].
    + intros [_ H]. lia.
  - cbn [scan depth]. destruct (k + depthStep c <? 0)%Z eqn:Neg.
    + apply Z.ltb_lt in Neg. split; [discriminate|].
      intros [H _]. specialize (H 1%nat). cbn in H. lia.
    + apply Z.ltb_ge in Neg. rewrite (IH _ Neg). split.
      * intros [Hp He]. split; [|lia].
        intros [|n]; cbn [firstn depth]; [lia|]. specialize (Hp n). lia.
      * intros [Hp He]. split; [|lia].
        intro n. specialize (Hp (S n)). cbn [firstn depth] in Hp. lia.
Qed.

Lemma isSyntaxSafe_balanced s : isSyntaxSafe s = true <-> balanced s.
Proof.
  rewrite isSyntaxSafe_scan, (scan_spec s (k := 0%Z)) by lia.
  unfold balanced. reflexivity.
Qed.

(** ** Escaping parentheses *)

Lemma escapeParens_cons c t :
  escapeParens (c :: t) =
  if isParen c then backslash :: c :: escapeParens t else c :: escapeParens t.
Proof. unfold escapeParens, replaceClass. cbn [flat_map]. destruct (isParen c); reflexivity. Qed.

Lemma isParen_backslash : isParen backslash = false.
Proof. reflexivity. Qed.

Lemma depthStep_nonparen c : isParen c = false -> depthStep c = 0%Z.
Proof.
  unfold isParen, depthStep, openParen, closeParen. intro H.
  apply orb_false_iff in H. destruct H as [H1 H2]. rewrite H1, H2. reflexivity.
Qed.

Lemma escapeParens_length t :
  length (escapeParens t) = (length t + parenCount t)%nat.
Proof.
  unfold parenCount. induction t as [|c t IH]; [reflexivity|].
  rewrite escapeParens_cons. cbn [filter length].
  destruct (isParen c); cbn [length]; rewrite IH; lia.
Qed.

Lemma escapeParens_parenCount t : parenCount (escapeParens t) = parenCount t.
Proof.
  unfold parenCount. induction t as [|c t IH]; [reflexivity|].
  rewrite escapeParens_cons. destruct (isParen c) eqn:E; cbn [filter].
  - rewrite isParen_backslash, E. cbn [length]. rewrite IH. reflexivity.
  - rewrite E. exact IH.
Qed.

Lemma escapeParens_preceded t :
  forall i c, nth_error (escapeParens t) i = Some c -> isParen c = true ->
    exists j, i = S j /\ nth_error (escapeParens t) j = Some backslash.
Proof.
  induction t as [|a t IH]; intros i c Hi Hc.
  - destruct i; discriminate.
  - rewrite escapeParens_cons in *. destruct (isParen a) eqn:Ea.
    + destruct i as [|[|i]].
      * cbn in Hi. injection Hi as <-. rewrite isParen_backslash in Hc. discriminate.
      * exists 0%nat. split; reflexivity.
      * cbn [nth_error] in Hi. destruct (IH _ _ Hi Hc) as [j [-> Hj]].
        exists (S (S j)). split; [reflexivity | exact Hj].
    + destruct i as [|i].
      * cbn in Hi. injection Hi as <-. congruence.
      * cbn [nth_error] in Hi. destruct (IH _ _ Hi Hc) as [j [-> Hj]].
        exists (S j). split; [reflexivity | exact Hj].
Qed.

Lemma escapeParens_head t :
  match escapeParens t with [] => True | p :: _ => isParen p = false end.
Proof.
  destruct t as [|a t]; [exact I|].
  rewrite escapeParens_cons. destruct (isParen a) eqn:E; [reflexivity | exact E].
Qed.

Lemma unescape_escapeParens t : unescape (escapeParens t) = t.
Proof.
  induction t as [|a t IH]; [reflexivity|].
  rewrite escapeParens_cons. destruct (isParen a) eqn:Ea.
  - cbn [unescape]. rewrite N.eqb_refl, Ea, IH. reflexivity.
  - cbn [unescape]. destruct (N.eqb a backslash) eqn:Eb; [|rewrite IH; reflexivity].
    pose proof (escapeParens_head t) as Hh.
    destruct (escapeParens t) as [|p rest'] eqn:Eesc.
    + cbn in IH. rewrite <- IH. reflexivity.
    + rewrite Hh, IH. reflexivity.
Qed.

Lemma scan_escapeParens t :
  forall k, (0 <= k)%Z -> scan (escapeParens t) k = scan t k.
Proof.
  induction t as [|a t IH]; intros k Hk; [reflexivity|].
  rewrite escapeParens_cons. destruct (isParen a) eqn:Ea.
  - cbn [scan]. rewrite (depthStep_nonparen backslash isParen_backslash), Z.add_0_r.
    destruct (k <? 0)%Z eqn:Neg; [apply Z.ltb_lt in Neg; lia|].
    destruct (k + depthStep a <? 0)%Z eqn:Neg'; [reflexivity|].
    apply IH. apply Z.ltb_ge in Neg'. exact Neg'.
  - cbn [scan]. rewrite (depthStep_nonparen a Ea), Z.add_0_r.
    destruct (k <? 0)%Z; [reflexivity | apply IH; exact Hk].
Qed.

Lemma scan_no_paren t :
  parenCount t = 0%nat -> forall k, scan t k = (if (k <? 0)%Z then false else Z.eqb k 0).
Proof.
  unfold parenCount. induction t as [|a t IH]; intros Hc k.
  - cbn [scan]. destruct (k <? 0)%Z eqn:Neg; [|reflexivity].
    apply Z.ltb_lt in Neg. apply Z.eqb_neq. lia.
  - cbn [filter] in Hc. destruct (isParen a) eqn:Ea; [discriminate|].
    cbn [scan]. rewrite (depthStep_nonparen a Ea), Z.add_0_r.
    destruct (k <? 0)%Z eqn:Neg; [reflexivity|].
    rewrite (IH Hc), Neg. reflexivity.
Qed.

Lemma unsafe_has_paren t : isSyntaxSafe t = false -> (0 < parenCount t)%nat.
Proof.
  intro H. destruct (parenCount t) eqn:E; [|lia].
  rewrite isSyntaxSafe_scan, (scan_no_paren t E) in H. discriminate.
Qed.

Lemma escapeParens_changes t : (0 < parenCount t)%nat -> escapeParens t <> t.
Proof.
  intros Hp Heq. pose proof (escapeParens_length t) as Hl. rewrite Heq in Hl. lia.
Qed.

Lemma isSyntaxSafe_escapeParens t : isSyntaxSafe (escapeParens t) = isSyntaxSafe t.
Proof. rewrite !isSyntaxSafe_scan. apply scan_escapeParens. lia. Qed.

(** C6: [isSyntaxSafe] (the specification's isBalanced) returns true exactly
    when the depth counter, read left to right, never goes negative and ends
    at 0; it is true on the empty string, "()" and "(a(b)c)" and false on
    ")(", "((" and ")". *)
Theorem C6_isSyntaxSafe_depth_counter :
  (forall s, isSyntaxSafe s = true <-> balanced s) /\
  isSyntaxSafe (lit "") = true /\ isSyntaxSafe (lit "()") = true /\
  isSyntaxSafe (lit "(a(b)c)") = true /\ isSyntaxSafe (lit ")(") = false /\
  isSyntaxSafe (lit "((") = false /\ isSyntaxSafe (lit ")") = false.
Proof.
  split; [exact isSyntaxSafe_balanced | repeat split; reflexivity].
Qed.

(** C7: [processTerm] returns its argument unchanged exactly when the term
    is balanced; on an unbalanced term every parenthesis of the result
    stands directly after a backslash, one backslash was added per
    parenthesis and nothing else (dropping those backslashes gives the term
    back), and the number of parentheses is that of the term. *)
Theorem C7_processTerm_escapes :
  forall term,
    (processTerm term = term <-> isSyntaxSafe term = true) /\
    (isSyntaxSafe term = false ->
       (forall i c, nth_error (processTerm term) i = Some c -> isParen c = true ->
          exists j, i = S j /\ nth_error (processTerm term) j = Some backslash) /\
       length (processTerm term) = (length term + parenCount term)%nat /\
       unescape (processTerm term) = term /\
       parenCount (processTerm term) = parenCount term).
Proof.
  intro term. unfold processTerm. split.
  - destruct (isSyntaxSafe term) eqn:Safe.
    + split; reflexivity.
    + split; [|discriminate]. intro Heq. exfalso.
      exact (escapeParens_changes (unsafe_has_paren term Safe) Heq).
  - intros Unsafe. rewrite Unsafe. repeat split.
    + apply escapeParens_preceded.
    + apply escapeParens_length.
    + apply unescape_escapeParens.
    + apply escapeParens_parenCount.
Qed.

Lemma C7_processTerm_escapes_witness :
  isSyntaxSafe (lit "a)b(") = false /\
  processTerm (lit "a)b(") = [97; 92; 41; 98; 92; 40]%N /\
  unescape (processTerm (lit "a)b(")) = lit "a)b(".
Proof.
  split; [reflexivity|]. split; [reflexivity|].
  exact (proj1 (proj2 (proj2 (proj2 (C7_processTerm_escapes (lit "a)b(")) eq_refl)))).
Defined.

(** C10: the balance verdict of a processed term is that of the term, since
    the checker ignores backslashes; hence on an unbalanced term a second
    [processTerm] escapes again and differs from the first. *)
Theorem C10_processTerm_keeps_verdict :
  forall t,
    isSyntaxSafe (processTerm t) = isSyntaxSafe t /\
    (isSyntaxSafe t = false -> processTerm (processTerm t) <> processTerm t).
Proof.
  intro t.
  assert (Keep : isSyntaxSafe (processTerm t) = isSyntaxSafe t).
  { unfold processTerm. destruct (isSyntaxSafe t) eqn:Safe; [exact Safe|].
    rewrite isSyntaxSafe_escapeParens. exact Safe. }
  split; [exact Keep|].
  intros Unsafe. rewrite Unsafe in Keep.
  unfold processTerm at 1. rewrite Keep.
  apply escapeParens_changes. apply unsafe_has_paren. exact Keep.
Qed.

Lemma C10_processTerm_keeps_verdict_witness :
  isSyntaxSafe (lit ")(") = false /\
  processTerm (processTerm (lit ")(")) <> processTerm (lit ")(").
Proof.
  split; [reflexivity|].
  exact (proj2 (C10_processTerm_keeps_verdict (lit ")(")) eq_refl).
Defined.

(** ** The sanitizer *)

Lemma replaceClass_fixed cls rep s :
  Forall (fun c => cls c = false) s -> replaceClass cls rep s = s.
Proof.
  unfold replaceClass. induction 1 as [|c s Hc _ IH]; [reflexivity|].
  cbn [flat_map]. rewrite Hc, IH. reflexivity.
Qed.

Lemma replaceClass_Forall (P Q : codeunit -> Prop) cls rep s :
  (forall c, Q c -> cls c = true -> Forall P (rep c)) ->
  (forall c, Q c -> cls c = false -> P c) ->
  Forall Q s -> Forall P (replaceClass cls rep s).
Proof.
  intros Hrep Hkeep. unfold replaceClass.
  induction 1 as [|c s Hc _ IH]; [constructor|].
  cbn [flat_map]. apply Forall_app. split; [|exact IH].
  destruct (cls c) eqn:E; [apply Hrep; assumption|].
  constructor; [apply Hkeep; assumption | constructor].
Qed.

Lemma trimStart_headKept s : headKept (trimStart s).
Proof.
  induction s as [|c s IH]; [exact I|].
  cbn [trimStart]. destruct (isWhiteSpace c) eqn:E; [exact IH | exact E].
Qed.

Lemma trimStart_fixed s : headKept s -> trimStart s = s.
Proof. destruct s as [|c s]; [reflexivity|]. cbn. intros ->. reflexivity. Qed.

Lemma trimStart_suffix s :
  exists p, s = p ++ trimStart s /\ Forall (fun c => isWhiteSpace c = true) p.
Proof.
  induction s as [|c s [p [IH Hp]]].
  - exists []. split; [reflexivity | constructor].
  - cbn [trimStart]. destruct (isWhiteSpace c) eqn:E.
    + exists (c :: p). split; [cbn; f_equal; exact IH | constructor; assumption].
    + exists []. split; [reflexivity | constructor].
Qed.

Lemma headKept_app_l a b : headKept (a ++ b) -> headKept a.
Proof. destruct a; [intros _; exact I | exact (fun H => H)]. Qed.

Lemma trimEnd_prefix s :
  exists q, s = trimEnd s ++ q /\ Forall (fun c => isWhiteSpace c = true) q.
Proof.
  unfold trimEnd. destruct (trimStart_suffix (rev s)) as [p [Hs Hp]].
  exists (rev p). split; [|apply Forall_rev; exact Hp].
  rewrite <- rev_app_distr, <- Hs, rev_involutive. reflexivity.
Qed.

Lemma trim_trim s : trim (trim s) = trim s.
Proof.
  unfold trim at 2 3.
  pose proof (trimStart_headKept s) as Hu.
  destruct (trimEnd_prefix (trimStart s)) as [q [Hq _]].
  rewrite Hq in Hu. apply headKept_app_l in Hu.
  unfold trim. rewrite (trimStart_fixed _ Hu).
  unfold trimEnd at 1. unfold trimEnd at 1.
  rewrite rev_involutive.
  rewrite (trimStart_fixed (trimStart (rev (trimStart s))) (trimStart_headKept _)).
  reflexivity.
Qed.

Lemma trimStart_Forall (P : codeunit -> Prop) s : Forall P s -> Forall P (trimStart s).
Proof.
  induction 1 as [|c s Hc Hs IH]; [constructor|].
  cbn [trimStart]. destruct (isWhiteSpace c); [exact IH | constructor; assumption].
Qed.

Lemma trim_Forall (P : codeunit -> Prop) s : Forall P s -> Forall P (trim s).
Proof.
  intro H. unfold trim, trimEnd.
  apply Forall_rev, trimStart_Forall, Forall_rev, trimStart_Forall, H.
Qed.

Lemma replacements_settled raw :
  Forall settled
    (replaceClass isDoubleCurly (fun _ => [34%N])
       (replaceClass isSingleCurly (fun _ => [39%N])
          (replaceClass isControl (fun _ => []) raw))).
Proof.
  apply replaceClass_Forall
    with (Q := fun c => isControl c = false /\ isSingleCurly c = false).
  - intros c _ _. constructor; [repeat split; reflexivity | constructor].
  - intros c [H1 H2] H3. repeat split; assumption.
  - apply replaceClass_Forall with (Q := fun c => isControl c = false).
    + intros c _ _. constructor; [split; reflexivity | constructor].
    + intros c H1 H2. split; assumption.
    + apply replaceClass_Forall with (Q := fun _ => True).
      * intros; constructor.
      * intros c _ H. exact H.
      * apply Forall_forall. intros; exact I.
Qed.

Lemma sanitizeInput_settled raw : Forall settled (sanitizeInput raw).
Proof. apply trim_Forall, replacements_settled. Qed.

(** C8: [sanitizeInput] is idempotent. *)
Theorem C8_sanitizeInput_idempotent :
  forall s, sanitizeInput (sanitizeInput s) = sanitizeInput s.
Proof.
  intro s. pose proof (sanitizeInput_settled s) as Hs.
  set (t := sanitizeInput s) in *.
  unfold sanitizeInput at 1.
  rewrite (replaceClass_fixed isControl (fun _ => []) (s := t)).
  2:{ eapply Forall_impl; [|exact Hs]. intros c [H _]. exact H. }
  rewrite (replaceClass_fixed isSingleCurly (fun _ => [39%N]) (s := t)).
  2:{ eapply Forall_impl; [|exact Hs]. intros c [_ [H _]]. exact H. }
  rewrite (replaceClass_fixed isDoubleCurly (fun _ => [34%N]) (s := t)).
  2:{ eapply Forall_impl; [|exact Hs]. intros c [_ [_ H]]. exact H. }
  subst t. unfold sanitizeInput. apply trim_trim.
Qed.

(** ** The clause string *)

Lemma template_replace d : replace (lit "%NUM%") d template = lit "site:*.*." ++ d ++ lit ".* |".
Proof. reflexivity. Qed.

Lemma upto_length n : forall ii, length (upto n ii) = n.
Proof. induction n as [|n IH]; intro ii; cbn; [reflexivity | rewrite IH; reflexivity]. Qed.

Lemma upto_nth n : forall ii k, (k < n)%nat -> nth_error (upto n ii) k = Some (ii + Z.of_nat k)%Z.
Proof.
  induction n as [|n IH]; intros ii k Hk; [lia|].
  destruct k as [|k]; cbn [upto nth_error].
  - f_equal. lia.
  - rewrite IH by lia. f_equal. lia.
Qed.

Lemma upto_snoc n : forall ii, upto (S n) ii = upto n ii ++ [(ii + Z.of_nat n)%Z].
Proof.
  induction n as [|n IH]; intro ii.
  - cbn. f_equal. lia.
  - change (upto (S (S n)) ii) with (ii :: upto (S n) (ii + 1)%Z).
    rewrite IH. cbn [upto app]. do 3 f_equal. lia.
Qed.

Lemma siteLoop_concat n :
  forall ii queryPart,
    siteLoop n ii queryPart = queryPart ++ concat (map fragment (upto n ii)).
Proof.
  induction n as [|n IH]; intros ii queryPart; cbn [siteLoop upto map concat].
  - rewrite app_nil_r. reflexivity.
  - rewrite IH, template_replace, <- app_assoc. reflexivity.
Qed.

Lemma siteClauses_concat bound :
  siteClauses bound = concat (map fragment (upto (Z.to_nat bound) 0%Z)).
Proof. unfold siteClauses. rewrite siteLoop_concat. reflexivity. Qed.

Lemma siteClauses_nonpositive bound : (bound <= 0)%Z -> siteClauses bound = [].
Proof.
  intro H. unfold siteClauses. replace (Z.to_nat bound) with 0%nat by lia. reflexivity.
Qed.

Lemma slice_drop_last s : slice s 0 (-1) = removelast s.
Proof.
  unfold slice, sliceIndex. cbn [Z.ltb Z.compare].
  rewrite removelast_firstn_len.
  replace (Z.to_nat (Z.min 0 (Z.of_nat (length s)))) with 0%nat by lia.
  cbn [skipn]. f_equal. lia.
Qed.

(** [slice] clamps the index it is asked for into the string. *)
Lemma sliceIndex_clamps len idx :
  (0 <= len)%Z -> sliceIndex len idx = Z.min (Z.max (sliceRequest len idx) 0) len.
Proof.
  intro H. unfold sliceIndex, sliceRequest. destruct (idx <? 0)%Z eqn:E.
  - apply Z.ltb_lt in E. lia.
  - apply Z.ltb_ge in E. lia.
Qed.


Lemma slice_drop_last_length s : length (slice s 0 (-1)) = pred (length s).
Proof.
  rewrite slice_drop_last, removelast_firstn_len, length_firstn. lia.
Qed.

Lemma fragment_ends_with_bar ii :
  fragment ii = (lit "site:*.*." ++ numberToString ii ++ lit ".* ") ++ [124%N].
Proof. unfold fragment. rewrite <- !app_assoc. reflexivity. Qed.

(** The clause string for [n + 1] turns: all fragments but the last in
    full, the last one without its closing bar (the blank before the bar
    stays). *)
Lemma clause_of_turns n :
  removelast (concat (map fragment (upto (S n) 0%Z))) =
  concat (map fragment (upto n 0%Z))
  ++ lit "site:*.*." ++ numberToString (Z.of_nat n) ++ lit ".* ".
Proof.
  rewrite upto_snoc, map_app, concat_app. cbn [map concat].
  rewrite app_nil_r, Z.add_0_l, fragment_ends_with_bar, app_assoc.
  rewrite removelast_last. reflexivity.
Qed.

(** ** Well-formed strings and [encodeURIComponent] *)

Lemma plain_tests c : plain c -> isTrail c = false /\ isLead c = false.
Proof.
  unfold plain, isSurrogate. intro H. apply orb_false_iff in H. tauto.
Qed.

Lemma small_plain c : (c < 256)%N -> plain c.
Proof.
  intro H. unfold plain, isSurrogate, isLead, isTrail.
  replace (N.leb 0xD800 c) with false by (symmetry; apply N.leb_gt; lia).
  replace (N.leb 0xDC00 c) with false by (symmetry; apply N.leb_gt; lia).
  reflexivity.
Qed.

Lemma lit_plain s : Forall plain (lit s).
Proof.
  unfold lit. induction s as [|a s IH]; cbn [list_ascii_of_string map]; constructor.
  - apply small_plain, N_ascii_bounded.
  - exact IH.
Qed.

Lemma isWellFormed_cons_plain c s : plain c -> isWellFormed (c :: s) = isWellFormed s.
Proof.
  intro H. destruct (plain_tests H) as [T L]. cbn [isWellFormed]. rewrite T, L. reflexivity.
Qed.

Lemma isWellFormed_plain s : Forall plain s -> isWellFormed s = true.
Proof.
  induction 1 as [|c s Hc _ IH]; [reflexivity|].
  rewrite isWellFormed_cons_plain; assumption.
Qed.

Lemma isWellFormed_cons x s :
  isWellFormed (x :: s) =
  if isTrail x then false
  else if isLead x then
    match s with d :: r => isTrail d && isWellFormed r | [] => false end
  else isWellFormed s.
Proof. reflexivity. Qed.

Lemma encodeURIComponent_cons x s :
  encodeURIComponent (x :: s) =
  if isUnreserved x then option_map (cons x) (encodeURIComponent s)
  else if isTrail x then None
  else if isLead x then
    match s with
    | d :: r =>
        if isTrail d
        then option_map (app (escapeCodePoint (pairCodePoint x d))) (encodeURIComponent r)
        else None
    | [] => None
    end
  else option_map (app (escapeCodePoint x)) (encodeURIComponent s).
Proof. reflexivity. Qed.

Lemma isWellFormed_before_plain c b : plain c ->
  forall a, isWellFormed (a ++ c :: b) = isWellFormed a && isWellFormed (c :: b).
Proof.
  intros Hc a. destruct (plain_tests Hc) as [Tc Lc].
  induction a as [|x|x y l IHl IHyl] using list_pair_ind.
  - reflexivity.
  - change ([x] ++ c :: b) with (x :: c :: b).
    rewrite (isWellFormed_cons x (c :: b)), (isWellFormed_cons x []), Tc.
    destruct (isTrail x); [reflexivity|]. destruct (isLead x); reflexivity.
  - change ((x :: y :: l) ++ c :: b) with (x :: y :: (l ++ c :: b)).
    rewrite (isWellFormed_cons x (y :: l ++ c :: b)), (isWellFormed_cons x (y :: l)).
    destruct (isTrail x); [reflexivity|].
    destruct (isLead x).
    + rewrite IHl, andb_assoc. reflexivity.
    + exact IHyl.
Qed.

Lemma isWellFormed_plain_suffix q : Forall plain q ->
  forall p, isWellFormed (p ++ q) = isWellFormed p.
Proof.
  intros Hq p. destruct Hq as [|c q Hc Hq]; [rewrite app_nil_r; reflexivity|].
  rewrite (isWellFormed_before_plain q Hc).
  rewrite (isWellFormed_plain (Forall_cons c Hc Hq)). apply andb_true_r.
Qed.

Lemma isWellFormed_plain_prefix p : Forall plain p ->
  forall s, isWellFormed (p ++ s) = isWellFormed s.
Proof.
  induction 1 as [|c p Hc _ IH]; intro s; [reflexivity|].
  cbn [app]. rewrite isWellFormed_cons_plain by exact Hc. apply IH.
Qed.

Lemma returns_option_map (A B : Type) (f : A -> B) o : returns (option_map f o) = returns o.
Proof. destruct o; reflexivity. Qed.

Lemma isUnreserved_plain c : isUnreserved c = true -> plain c.
Proof.
  intro H. apply small_plain. unfold isUnreserved, isAlphaNum in H.
  repeat (apply orb_true_iff in H; destruct H as [H|H]); unit_arith.
Qed.

(** [encodeURIComponent] returns exactly on the well-formed strings. *)
Lemma encodeURIComponent_returns s :
  returns (encodeURIComponent s) = isWellFormed s.
Proof.
  induction s as [|x|x y l IHl IHyl] using list_pair_ind.
  - reflexivity.
  - rewrite encodeURIComponent_cons, isWellFormed_cons.
    destruct (isUnreserved x) eqn:U.
    + destruct (plain_tests (isUnreserved_plain x U)) as [-> ->]. reflexivity.
    + destruct (isTrail x); [reflexivity|]. destruct (isLead x); reflexivity.
  - rewrite (encodeURIComponent_cons x (y :: l)), (isWellFormed_cons x (y :: l)).
    destruct (isUnreserved x) eqn:U.
    + destruct (plain_tests (isUnreserved_plain x U)) as [-> ->].
      rewrite returns_option_map. exact IHyl.
    + destruct (isTrail x); [reflexivity|]. destruct (isLead x).
      * destruct (isTrail y); [|reflexivity].
        rewrite returns_option_map. exact IHl.
      * rewrite returns_option_map. exact IHyl.
Qed.

Lemma encodeURIComponent_wellFormed s :
  isWellFormed s = true -> exists q, encodeURIComponent s = Some q.
Proof.
  intro H. rewrite <- encodeURIComponent_returns in H.
  destruct (encodeURIComponent s) as [q|]; [exists q; reflexivity | discriminate].
Qed.

Lemma encodeURIComponent_throws s :
  isWellFormed s = false -> encodeURIComponent s = None.
Proof.
  intro H. rewrite <- encodeURIComponent_returns in H.
  destruct (encodeURIComponent s); [discriminate | reflexivity].
Qed.

Lemma Forall_removelast (P : codeunit -> Prop) s : Forall P s -> Forall P (removelast s).
Proof.
  induction 1 as [|c s Hc Hs IH]; [constructor|].
  cbn [removelast]. destruct s; [constructor | constructor; assumption].
Qed.

Lemma numberToString_plain z : Forall plain (numberToString z).
Proof. apply lit_plain. Qed.

Lemma fragments_plain l : Forall plain (concat (map fragment l)).
Proof.
  induction l as [|ii l IH]; [constructor|].
  cbn [map concat]. apply Forall_app. split; [|exact IH].
  unfold fragment. repeat (apply Forall_app; split);
    first [apply lit_plain | apply numberToString_plain].
Qed.

Lemma clause_plain bound : Forall plain (slice (siteClauses bound) 0 (-1)).
Proof.
  rewrite slice_drop_last, siteClauses_concat.
  apply Forall_removelast, fragments_plain.
Qed.

Lemma finalQueryOf_wellFormed term queryPart :
  Forall plain queryPart ->
  isWellFormed (finalQueryOf term queryPart) = isWellFormed term.
Proof.
  intro Hq. unfold finalQueryOf.
  rewrite (isWellFormed_plain_prefix (lit_plain "(")).
  apply isWellFormed_plain_suffix.
  repeat (apply Forall_app; split); first [apply lit_plain | exact Hq].
Qed.

(** ** The vector loops *)

Section PushLoop.

Variable body : Z -> option jsstring.

Lemma pushLoop_result n :
  forall i acc out,
    pushLoop body n i acc = Some out ->
    exists urls, out = acc ++ urls /\ length urls = n /\
      forall k, (k < n)%nat -> nth_error urls k = body (i + Z.of_nat k)%Z.
Proof.
  induction n as [|n IH]; intros i acc out H; cbn [pushLoop] in H.
  - injection H as <-. exists []. rewrite app_nil_r. repeat split. intros k Hk; lia.
  - destruct (body i) as [url|] eqn:Hb; [|discriminate].
    apply IH in H. destruct H as [urls [-> [Hlen Hnth]]].
    exists (url :: urls). rewrite <- app_assoc. repeat split.
    + cbn. rewrite Hlen. reflexivity.
    + intros [|k] Hk; cbn [nth_error].
      * rewrite Z.add_0_r. symmetry. exact Hb.
      * rewrite Hnth by lia. f_equal. lia.
Qed.

Lemma pushLoop_returns n :
  forall i acc,
    (forall k, (k < n)%nat -> returns (body (i + Z.of_nat k)%Z) = true) ->
    returns (pushLoop body n i acc) = true.
Proof.
  induction n as [|n IH]; intros i acc H; cbn [pushLoop]; [reflexivity|].
  pose proof (H 0%nat ltac:(lia)) as H0. rewrite Z.add_0_r in H0.
  destruct (body i) as [url|]; [|discriminate].
  apply IH. intros k Hk. specialize (H (S k) ltac:(lia)).
  replace (i + 1 + Z.of_nat k)%Z with (i + Z.of_nat (S k))%Z by lia. exact H.
Qed.

Lemma pushLoop_throws n i acc :
  body i = None -> pushLoop body (S n) i acc = None.
Proof. intro H. cbn [pushLoop]. rewrite H. reflexivity. Qed.

(** A loop whose every turn returns yields one URL per index, in order. *)
Lemma pushLoop_total n :
  (forall k, (k < n)%nat -> returns (body (Z.of_nat k)) = true) ->
  exists urls,
    pushLoop body n 0%Z [] = Some urls /\ length urls = n /\
    forall k, (k < n)%nat -> nth_error urls k = body (Z.of_nat k).
Proof.
  intro H.
  assert (R : returns (pushLoop body n 0%Z []) = true)
    by (apply pushLoop_returns; exact H).
  destruct (pushLoop body n 0%Z []) as [out|] eqn:E; [|discriminate].
  apply pushLoop_result in E. destruct E as [urls [-> [Hlen Hnth]]].
  exists urls. repeat split; [exact Hlen|]. intros k Hk. rewrite (Hnth k Hk). reflexivity.
Qed.

(** Whatever a loop returns holds at position [k] the URL of index [k]. *)
Lemma pushLoop_nth n urls k url :
  pushLoop body n 0%Z [] = Some urls ->
  nth_error urls k = Some url ->
  (k < n)%nat /\ body (Z.of_nat k) = Some url.
Proof.
  intros E Hn. apply pushLoop_result in E. destruct E as [urls' [-> [Hlen Hnth]]].
  cbn [app] in Hn.
  assert (Hk : (k < n)%nat) by (rewrite <- Hlen; apply nth_error_Some; congruence).
  split; [exact Hk|]. rewrite (Hnth k Hk) in Hn. exact Hn.
Qed.

End PushLoop.

Lemma Part000_vectorLoop_pushLoop term density pageOffset decayFactor n :
  forall i acc,
    Part000.vectorLoop term density pageOffset decayFactor n i acc =
    pushLoop (Part000.vectorAt term density pageOffset decayFactor) n i acc.
Proof.
  induction n as [|n IH]; intros i acc; cbn [Part000.vectorLoop pushLoop]; [reflexivity|].
  destruct (Part000.vectorAt term density pageOffset decayFactor i); [apply IH | reflexivity].
Qed.

Lemma AppTsx_vectorLoop_pushLoop term o n :
  forall i acc,
    AppTsx.vectorLoop term o n i acc = pushLoop (AppTsx.vectorAt term o) n i acc.
Proof.
  induction n as [|n IH]; intros i acc; cbn [AppTsx.vectorLoop pushLoop]; [reflexivity|].
  destruct (AppTsx.vectorAt term o i); [apply IH | reflexivity].
Qed.

Lemma Part000_vectorAt_returns term density pageOffset decayFactor i :
  returns (Part000.vectorAt term density pageOffset decayFactor i) = isWellFormed term.
Proof.
  unfold Part000.vectorAt, Part000.searchUrlOf, Part000.queryPartOf.
  rewrite returns_option_map, encodeURIComponent_returns.
  apply finalQueryOf_wellFormed, clause_plain.
Qed.

Lemma AppTsx_vectorAt_returns term o i :
  returns (AppTsx.vectorAt term o i) = isWellFormed term.
Proof.
  unfold AppTsx.vectorAt, AppTsx.queryPartOf.
  rewrite returns_option_map, encodeURIComponent_returns.
  apply finalQueryOf_wellFormed, clause_plain.
Qed.

(** On a well-formed term the block returns one URL per index, in index
    order. *)
Lemma Part000_buildVectors_wellFormed term vectorCount density pageOffset :
  isWellFormed term = true ->
  exists urls,
    Part000.buildVectors term vectorCount density pageOffset = Some urls /\
    length urls = Z.to_nat vectorCount /\
    forall i, (i < Z.to_nat vectorCount)%nat ->
      nth_error urls i =
      Part000.vectorAt term density pageOffset (Part000.decayFactorOf term) (Z.of_nat i).
Proof.
  intro Wf. unfold Part000.buildVectors. rewrite Part000_vectorLoop_pushLoop.
  apply pushLoop_total. intros k _. rewrite Part000_vectorAt_returns. exact Wf.
Qed.

Lemma Part000_buildVectors_throws term vectorCount density pageOffset :
  (1 <= vectorCount)%Z -> isWellFormed term = false ->
  Part000.buildVectors term vectorCount density pageOffset = None.
Proof.
  intros Hv Wf. unfold Part000.buildVectors. rewrite Part000_vectorLoop_pushLoop.
  destruct (Z.to_nat vectorCount) as [|n] eqn:E; [lia|].
  apply pushLoop_throws.
  pose proof (Part000_vectorAt_returns term density pageOffset (Part000.decayFactorOf term) 0) as R.
  rewrite Wf in R.
  destruct (Part000.vectorAt term density pageOffset (Part000.decayFactorOf term) 0);
    [discriminate | reflexivity].
Qed.

Lemma AppTsx_generateUrls_wellFormed term :
  isWellFormed term = true ->
  exists urls,
    AppTsx.generateUrls term = Some urls /\
    length urls = Z.to_nat AppTsx.maxUrls /\
    forall i, (i < Z.to_nat AppTsx.maxUrls)%nat ->
      nth_error urls i = AppTsx.vectorAt term (AppTsx.oOf term) (Z.of_nat i).
Proof.
  intro Wf. unfold AppTsx.generateUrls. rewrite AppTsx_vectorLoop_pushLoop.
  apply pushLoop_total. intros k _. rewrite AppTsx_vectorAt_returns. exact Wf.
Qed.

Lemma Part000_buildVectors_nth term vectorCount density pageOffset urls i url :
  Part000.buildVectors term vectorCount density pageOffset = Some urls ->
  nth_error urls i = Some url ->
  Part000.vectorAt term density pageOffset (Part000.decayFactorOf term) (Z.of_nat i) = Some url.
Proof.
  unfold Part000.buildVectors. rewrite Part000_vectorLoop_pushLoop. intros E Hn.
  exact (proj2 (pushLoop_nth _ _ _ E Hn)).
Qed.

Lemma AppTsx_generateUrls_nth term urls i url :
  AppTsx.generateUrls term = Some urls ->
  nth_error urls i = Some url ->
  AppTsx.vectorAt term (AppTsx.oOf term) (Z.of_nat i) = Some url.
Proof.
  unfold AppTsx.generateUrls. rewrite AppTsx_vectorLoop_pushLoop. intros E Hn.
  exact (proj2 (pushLoop_nth _ _ _ E Hn)).
Qed.

(** C2, amended: for every term without an unpaired surrogate and every
    parameter triple within the documented bounds the block returns exactly
    [vectorCount] URLs, the URL of index [i] at position [i]; on a term with
    an unpaired surrogate [encodeURIComponent] throws and no list is
    returned. *)
Theorem C2_buildVectors_count :
  forall term vectorCount density pageOffset,
    (1 <= vectorCount <= 20)%Z -> (128 <= density <= 1024)%Z ->
    (0 <= pageOffset <= 9)%Z ->
    (isWellFormed term = true ->
       exists urls,
         Part000.buildVectors term vectorCount density pageOffset = Some urls /\
         length urls = Z.to_nat vectorCount /\
         forall i, (i < Z.to_nat vectorCount)%nat ->
           nth_error urls i =
           Part000.vectorAt term density pageOffset (Part000.decayFactorOf term)
             (Z.of_nat i)) /\
    (isWellFormed term = false ->
       Part000.buildVectors term vectorCount density pageOffset = None).
Proof.
  intros term vectorCount density pageOffset Hv Hd Hp. split.
  - apply Part000_buildVectors_wellFormed.
  - apply Part000_buildVectors_throws. lia.
Qed.

Lemma C2_buildVectors_count_witness :
  (1 <= 10 <= 20)%Z /\ (128 <= 257 <= 1024)%Z /\ (0 <= 0 <= 9)%Z /\
  isWellFormed (lit "test") = true /\
  exists urls,
    Part000.buildVectors (lit "test") 10 257 0 = Some urls /\
    length urls = Z.to_nat 10 /\
    forall i, (i < Z.to_nat 10)%nat ->
      nth_error urls i =
      Part000.vectorAt (lit "test") 257 0 (Part000.decayFactorOf (lit "test")) (Z.of_nat i).
Proof.
  assert (Hv : (1 <= 10 <= 20)%Z) by lia.
  assert (Hd : (128 <= 257 <= 1024)%Z) by lia.
  assert (Hp : (0 <= 0 <= 9)%Z) by lia.
  repeat (split; [assumption || reflexivity|]).
  exact (proj1 (C2_buildVectors_count (lit "test") Hv Hd Hp) eq_refl).
Defined.

(** C2 as stated fails: a term that is one unpaired lead surrogate makes
    [encodeURIComponent] throw in the first turn, so no URL list is
    returned. *)
Lemma C2_unpaired_surrogate_throws :
  (1 <= 10 <= 20)%Z /\ (128 <= 257 <= 1024)%Z /\ (0 <= 0 <= 9)%Z /\
  processTerm (sanitizeInput [0xD800%N]) = [0xD800%N] /\
  Part000.buildVectors [0xD800%N] 10 257 0 = None /\
  snd (Part000.executeSearch (fun _ => true)
         (Part000.mkState [0xD800%N] false [] [] false 10 257 0)) = ThrewURIError.
Proof. repeat split; try lia; vm_compute; reflexivity. Qed.

(** ** The iteration count and the clause string, variant by variant *)

(** In part_000 the count of site clauses of vector [i] is
    [max (density - i * decayFactor) 1] with
    [decayFactor = max (32 - wordCount) 1]; it is at least 1, and the vector
    is built from that many fragments. *)
Lemma Part000_vector_iterations term density pageOffset i :
  let wordCount := Z.of_nat (length (split space term)) in
  let decayFactor := Z.max (32 - wordCount) 1 in
  let iterations := Z.max (density - i * decayFactor) 1 in
  Part000.decayFactorOf term = decayFactor /\
  (1 <= iterations)%Z /\
  length (upto (Z.to_nat iterations) 0%Z) = Z.to_nat iterations /\
  Part000.vectorAt term density pageOffset (Part000.decayFactorOf term) i =
  Part000.searchUrlOf
    (finalQueryOf term
       (removelast (concat (map fragment (upto (Z.to_nat iterations) 0%Z)))))
    pageOffset.
Proof.
  cbv zeta. split; [reflexivity|]. repeat split.
  - lia.
  - apply upto_length.
  - unfold Part000.vectorAt, Part000.queryPartOf, Part000.iterationsOf,
      Part000.decayFactorOf, wordCountOf.
    rewrite slice_drop_last, siteClauses_concat. reflexivity.
Qed.

(** In part_000 the clause string is the concatenation of the fragments
    with one character removed: the bar of the last fragment goes, the
    blank before it stays. *)
Lemma Part000_clause_string iterations :
  Part000.queryPartOf iterations =
  removelast (concat (map fragment (upto (Z.to_nat iterations) 0%Z))) /\
  length (Part000.queryPartOf iterations) =
  pred (length (concat (map fragment (upto (Z.to_nat iterations) 0%Z)))) /\
  ((1 <= iterations)%Z ->
   Part000.queryPartOf iterations =
   concat (map fragment (upto (Z.to_nat (iterations - 1)) 0%Z))
   ++ lit "site:*.*." ++ numberToString (iterations - 1) ++ lit ".* ").
Proof.
  unfold Part000.queryPartOf. repeat split.
  - rewrite slice_drop_last, siteClauses_concat. reflexivity.
  - rewrite slice_drop_last_length, siteClauses_concat. reflexivity.
  - intro H. rewrite slice_drop_last, siteClauses_concat.
    replace (Z.to_nat iterations) with (S (Z.to_nat (iterations - 1))) by lia.
    rewrite clause_of_turns, Z2Nat.id by lia. reflexivity.
Qed.

(** In App.tsx the inner loop runs [max (257 - i * o) 0] turns. *)
Lemma AppTsx_clause_string o i :
  AppTsx.queryPartOf o i =
  removelast (concat (map fragment (upto (Z.to_nat (257 - i * o)) 0%Z))).
Proof.
  unfold AppTsx.queryPartOf, AppTsx.loopBound.
  rewrite slice_drop_last, siteClauses_concat. reflexivity.
Qed.


(** C1, at the input where App.tsx departs from it: for the term "test"
    ([wordCount] 1, decay 31) the inner loop of vector 9 has the bound
    [257 - 9 * 31 = -22] and runs no turn, so the query is "(test) ()";
    the claim's count is [max (-22) 1 = 1], which part_000 computes. *)
Theorem C1_AppTsx_index9_runs_no_turn :
  wordCountOf (lit "test") = 1%Z /\
  AppTsx.oOf (lit "test") = 31%Z /\
  AppTsx.loopBound (AppTsx.oOf (lit "test")) 9 = (-22)%Z /\
  Z.to_nat (AppTsx.loopBound (AppTsx.oOf (lit "test")) 9) = 0%nat /\
  Part000.iterationsOf 257 (Part000.decayFactorOf (lit "test")) 9 = 1%Z /\
  (exists urls,
     AppTsx.generateUrls (lit "test") = Some urls /\
     nth_error urls 9 = Some (lit "https://www.google.com/search?q=(test)%20()")) /\
  (exists urls,
     Part000.buildVectors (lit "test") 10 257 0 = Some urls /\
     nth_error urls 9 =
     Some (lit "https://www.google.com/search?q=(test)%20(site%3A*.*.0.*%20)&start=0")).
Proof.
  repeat split; try (vm_compute; reflexivity).
  - destruct (AppTsx_generateUrls_wellFormed (lit "test") eq_refl)
      as [urls [E [_ Hnth]]].
    exists urls. split; [exact E|].
    rewrite (Hnth 9%nat) by (vm_compute; lia). vm_compute. reflexivity.
  - destruct (Part000_buildVectors_wellFormed (lit "test") 10 257 0 eq_refl)
      as [urls [E [_ Hnth]]].
    exists urls. split; [exact E|].
    rewrite (Hnth 9%nat) by (vm_compute; lia). vm_compute. reflexivity.
Qed.

(** C3, at the input where App.tsx departs from it: for the term "test"
    the clause string of vector 9 is empty and the query is "(test) ()",
    with no [site:*.*.0.*] fragment at all; part_000 yields the one fragment
    without its bar. *)
Theorem C3_AppTsx_index9_clause_is_empty :
  AppTsx.queryPartOf (AppTsx.oOf (lit "test")) 9 = [] /\
  finalQueryOf (lit "test") (AppTsx.queryPartOf (AppTsx.oOf (lit "test")) 9)
  = lit "(test) ()" /\
  AppTsx.vectorAt (lit "test") (AppTsx.oOf (lit "test")) 9
  = Some (lit "https://www.google.com/search?q=(test)%20()") /\
  Part000.queryPartOf (Part000.iterationsOf 257 (Part000.decayFactorOf (lit "test")) 9)
  = lit "site:*.*.0.* " /\
  finalQueryOf (lit "test")
    (Part000.queryPartOf (Part000.iterationsOf 257 (Part000.decayFactorOf (lit "test")) 9))
  = lit "(test) (site:*.*.0.* )".
Proof. repeat split; vm_compute; reflexivity. Qed.

(** ** The URL *)

(** C4, amended: every URL part_000 generates is
    [https://www.google.com/search?q=<q>&start=<pageOffset * 10>] with [<q>]
    the [encodeURIComponent] of "(" + term + ") (" + clause string + ")";
    every URL App.tsx generates is [https://www.google.com/search?q=<q>]
    with the same [<q>] rule and no [start] parameter. *)
Theorem C4_url_form :
  (forall term vectorCount density pageOffset urls i url,
     Part000.buildVectors term vectorCount density pageOffset = Some urls ->
     nth_error urls i = Some url ->
     exists q,
       encodeURIComponent
         (lit "(" ++ term ++ lit ") ("
          ++ Part000.queryPartOf
               (Part000.iterationsOf density (Part000.decayFactorOf term) (Z.of_nat i))
          ++ lit ")") = Some q /\
       url = lit "https://www.google.com/search?q=" ++ q
             ++ lit "&start=" ++ numberToString (pageOffset * 10)) /\
  (forall term urls i url,
     AppTsx.generateUrls term = Some urls ->
     nth_error urls i = Some url ->
     exists q,
       encodeURIComponent
         (lit "(" ++ term ++ lit ") ("
          ++ AppTsx.queryPartOf (AppTsx.oOf term) (Z.of_nat i) ++ lit ")") = Some q /\
       url = lit "https://www.google.com/search?q=" ++ q).
Proof.
  split.
  - intros term vectorCount density pageOffset urls i url E Hn.
    pose proof (Part000_buildVectors_nth _ _ _ _ _ E Hn) as Hv.
    unfold Part000.vectorAt, Part000.searchUrlOf, finalQueryOf in Hv.
    destruct (encodeURIComponent _) as [q|] eqn:Eq; [|discriminate].
    exists q. split; [reflexivity|]. cbn [option_map] in Hv. congruence.
  - intros term urls i url E Hn.
    pose proof (AppTsx_generateUrls_nth _ _ E Hn) as Hv.
    unfold AppTsx.vectorAt, finalQueryOf in Hv.
    destruct (encodeURIComponent _) as [q|] eqn:Eq; [|discriminate].
    exists q. split; [reflexivity|]. cbn [option_map] in Hv. congruence.
Qed.

Lemma C4_url_form_witness :
  exists urls url,
    Part000.buildVectors (lit "a b") 1 128 3 = Some urls /\
    nth_error urls 0 = Some url /\
    exists q,
      encodeURIComponent
        (lit "(" ++ lit "a b" ++ lit ") ("
         ++ Part000.queryPartOf
              (Part000.iterationsOf 128 (Part000.decayFactorOf (lit "a b")) (Z.of_nat 0))
         ++ lit ")") = Some q /\
      url = lit "https://www.google.com/search?q=" ++ q
            ++ lit "&start=" ++ numberToString (3 * 10).
Proof.
  eexists. eexists.
  split; [vm_compute; reflexivity|]. split; [reflexivity|].
  eapply (proj1 C4_url_form (lit "a b") 1%Z 128%Z 3%Z) with (i := 0%nat);
    [vm_compute; reflexivity | reflexivity].
Defined.

(** C4 as stated fails in App.tsx: the URL of index 9 for the term "test"
    is [https://www.google.com/search?q=(test)%20()], which has no [&start=]
    part whatever the encoded query and the number are taken to be. *)
Lemma C4_AppTsx_url_without_start :
  (exists urls,
     AppTsx.generateUrls (lit "test") = Some urls /\
     nth_error urls 9 = Some (lit "https://www.google.com/search?q=(test)%20()")) /\
  ~ (exists q n,
       lit "https://www.google.com/search?q=(test)%20()" =
       lit "https://www.google.com/search?q=" ++ q ++ lit "&start=" ++ n).
Proof.
  split.
  - destruct (AppTsx_generateUrls_wellFormed (lit "test") eq_refl)
      as [urls [E [_ Hnth]]].
    exists urls. split; [exact E|].
    rewrite (Hnth 9%nat) by (vm_compute; lia). vm_compute. reflexivity.
  - intros [q [n H]].
    change (lit "https://www.google.com/search?q=(test)%20()")
      with (lit "https://www.google.com/search?q=" ++ lit "(test)%20()") in H.
    apply app_inv_head in H.
    assert (Hin : In 38%N (lit "(test)%20()")).
    { rewrite H. apply in_or_app. right. left. reflexivity. }
    vm_compute in Hin. intuition discriminate.
Qed.

(** ** The truncation on an empty clause string *)




(** ** Sanitizing and escaping keep a string well formed *)

Lemma isWellFormed_single x : isWellFormed [x] = true -> plain x.
Proof.
  rewrite isWellFormed_cons. unfold plain, isSurrogate.
  destruct (isTrail x); [discriminate|]. destruct (isLead x); [discriminate|]. reflexivity.
Qed.

Lemma replaceClass_cons cls rep x s :
  replaceClass cls rep (x :: s) = (if cls x then rep x else [x]) ++ replaceClass cls rep s.
Proof. reflexivity. Qed.

Lemma replaceClass_wellFormed cls rep :
  (forall c, cls c = true -> plain c /\ Forall plain (rep c)) ->
  forall s, isWellFormed s = true -> isWellFormed (replaceClass cls rep s) = true.
Proof.
  intros Hcls s.
  assert (Hf : forall x, plain x -> Forall plain (if cls x then rep x else [x])).
  { intros x Hx. destruct (cls x) eqn:E; [apply Hcls; exact E | repeat constructor; exact Hx]. }
  assert (Hsur : forall x, isSurrogate x = true -> cls x = false).
  { intros x Hx. destruct (cls x) eqn:E; [|reflexivity].
    destruct (Hcls x E) as [Hp _]. unfold plain in Hp. congruence. }
  induction s as [|x|x y l IHl IHyl] using list_pair_ind; intro Wf.
  - reflexivity.
  - rewrite replaceClass_cons. apply isWellFormed_plain.
    apply Forall_app. split; [|constructor]. apply Hf, isWellFormed_single, Wf.
  - rewrite (isWellFormed_cons x (y :: l)) in Wf.
    destruct (isTrail x) eqn:Tx; [discriminate|].
    destruct (isLead x) eqn:Lx.
    + apply andb_true_iff in Wf. destruct Wf as [Ty Wl].
      rewrite !replaceClass_cons.
      rewrite (Hsur x) by (unfold isSurrogate; rewrite Lx; reflexivity).
      rewrite (Hsur y) by (unfold isSurrogate; rewrite Ty; apply orb_true_r).
      cbn [app]. rewrite isWellFormed_cons, Tx, Lx, Ty. apply IHl, Wl.
    + rewrite replaceClass_cons, isWellFormed_plain_prefix; [apply IHyl, Wf|].
      apply Hf. unfold plain, isSurrogate. rewrite Tx, Lx. reflexivity.
Qed.

Lemma isWhiteSpace_plain c : isWhiteSpace c = true -> plain c.
Proof.
  intro H. unfold plain, isSurrogate, isLead, isTrail. unfold isWhiteSpace in H.
  apply orb_false_iff. split; apply andb_false_iff;
    repeat (apply orb_true_iff in H; destruct H as [H|H]);
    unit_arith;
    first [ left; apply N.leb_gt; lia | right; apply N.leb_gt; lia ].
Qed.

Lemma trim_wellFormed s : isWellFormed s = true -> isWellFormed (trim s) = true.
Proof.
  intro Wf. unfold trim.
  assert (Ws : isWellFormed (trimStart s) = true).
  { destruct (trimStart_suffix s) as [p [Hs Hp]].
    rewrite Hs, isWellFormed_plain_prefix in Wf; [exact Wf|].
    eapply Forall_impl; [|exact Hp]. exact isWhiteSpace_plain. }
  destruct (trimEnd_prefix (trimStart s)) as [q [Hq Hws]].
  rewrite Hq, isWellFormed_plain_suffix in Ws; [exact Ws|].
  eapply Forall_impl; [|exact Hws]. exact isWhiteSpace_plain.
Qed.

Lemma sanitizeInput_wellFormed raw :
  isWellFormed raw = true -> isWellFormed (sanitizeInput raw) = true.
Proof.
  intro Wf. unfold sanitizeInput.
  apply trim_wellFormed; repeat apply replaceClass_wellFormed; try exact Wf;
    intros c Hc; (split; [|repeat constructor; apply small_plain; reflexivity]);
    unfold plain, isSurrogate, isLead, isTrail;
    unfold isDoubleCurly, isSingleCurly, isControl in Hc;
    apply orb_true_iff in Hc; destruct Hc as [Hc|Hc]; unit_arith;
    apply orb_false_iff; split; apply andb_false_iff; left; apply N.leb_gt; lia.
Qed.

Lemma processTerm_wellFormed term :
  isWellFormed term = true -> isWellFormed (processTerm term) = true.
Proof.
  intro Wf. unfold processTerm. destruct (isSyntaxSafe term); [exact Wf|].
  unfold escapeParens. apply replaceClass_wellFormed; [|exact Wf].
  intros c Hc.
  assert (Hp : plain c).
  { apply small_plain. unfold isParen in Hc.
    apply orb_true_iff in Hc; destruct Hc as [Hc|Hc]; unit_arith. }
  split; [exact Hp|]. repeat constructor; exact Hp.
Qed.

(** ** Diagnostics of a generation request *)

(** What a request that passes the guard does: whatever was logged before
    the block stays logged, and the outcome is the one of the block, the
    URL list stored as [vectors] when the block returns, the old [vectors]
    kept when [encodeURIComponent] throws. *)
Lemma Part000_executeSearch_outcome windowOpen st :
  jseq (trim (Part000.input st)) [] = false ->
  Part000.isBooting st = false ->
  ((600 < Part000.density st)%Z ->
   In densityRisk (Part000.logs (fst (Part000.executeSearch windowOpen st)))) /\
  match Part000.buildVectors (processTerm (sanitizeInput (Part000.input st)))
          (Part000.vectorCount st) (Part000.density st) (Part000.pageOffset st) with
  | Some urls =>
      snd (Part000.executeSearch windowOpen st) = Returned /\
      Part000.vectors (fst (Part000.executeSearch windowOpen st)) = urls
  | None =>
      snd (Part000.executeSearch windowOpen st) = ThrewURIError /\
      Part000.vectors (fst (Part000.executeSearch windowOpen st)) = Part000.vectors st
  end.
Proof.
  intros Hin Hboot. unfold Part000.executeSearch.
  rewrite Hin, Hboot. cbn [orb].
  destruct (negb (jseq (Part000.input (Part000.setIsExecuting true st))
                   (sanitizeInput (Part000.input (Part000.setIsExecuting true st)))));
  destruct (negb (isSyntaxSafe (sanitizeInput (Part000.input (Part000.setIsExecuting true st)))));
  destruct (600 <? Part000.density st)%Z eqn:Risk;
  run_fields; rewrite ?Risk; run_fields;
  destruct (Part000.buildVectors _ _ _ _) as [urls|];
  try destruct (windowOpen (nth_error urls 0));
  run_fields;
  (split; [|split; reflexivity]; intro Hd;
   try (apply Z.ltb_ge in Risk; lia);
   repeat rewrite in_app_iff; cbn [In]; unfold densityRisk; tauto).
Qed.




(** * Further properties of the code *)

(** ** The sanitizer, continued *)

Lemma trim_headKept s : headKept (trim s).
Proof.
  unfold trim. pose proof (trimStart_headKept s) as Hu.
  destruct (trimEnd_prefix (trimStart s)) as [q [Hq _]].
  rewrite Hq in Hu. exact (headKept_app_l _ _ Hu).
Qed.

Lemma trim_trimmed s : trimmed (trim s).
Proof.
  split; [apply trim_headKept|].
  unfold trim, trimEnd. rewrite rev_involutive. apply trimStart_headKept.
Qed.

Lemma trim_fixed s : trimmed s -> trim s = s.
Proof.
  intros [Hh Hl]. unfold trim, trimEnd.
  rewrite (trimStart_fixed s Hh), (trimStart_fixed (rev s) Hl). apply rev_involutive.
Qed.

Lemma trimStart_length s : (length (trimStart s) <= length s)%nat.
Proof.
  destruct (trimStart_suffix s) as [p [Hs _]].
  rewrite Hs at 2. rewrite length_app. lia.
Qed.

Lemma trim_length s : (length (trim s) <= length s)%nat.
Proof.
  unfold trim, trimEnd. rewrite length_rev.
  etransitivity; [apply trimStart_length|]. rewrite length_rev. apply trimStart_length.
Qed.

Lemma replaceClass_length cls rep s :
  (forall c, (length (rep c) <= 1)%nat) ->
  (length (replaceClass cls rep s) <= length s)%nat.
Proof.
  intro Hrep. induction s as [|x s IH]; [reflexivity|].
  rewrite replaceClass_cons, length_app. cbn [length].
  assert ((length (if cls x then rep x else [x]) <= 1)%nat)
    by (destruct (cls x); [apply Hrep | reflexivity]).
  lia.
Qed.

Lemma trim_all_whiteSpace s :
  Forall (fun c => isWhiteSpace c = true) s -> trim s = [].
Proof.
  intro H. unfold trim.
  assert (E : trimStart s = []).
  { induction H as [|c s Hc _ IH]; [reflexivity|]. cbn [trimStart]. rewrite Hc. exact IH. }
  rewrite E. reflexivity.
Qed.

(** X1: what [sanitizeInput] returns holds no control character (0x00 to
    0x1F, 0x7F) and no curly quote (U+2018, U+2019, U+201C, U+201D). *)
Theorem X1_sanitizeInput_output_clean :
  forall raw c, In c (sanitizeInput raw) ->
    isControl c = false /\ isSingleCurly c = false /\ isDoubleCurly c = false.
Proof.
  intros raw c Hin.
  exact (proj1 (Forall_forall settled (sanitizeInput raw)) (sanitizeInput_settled raw) c Hin).
Qed.

Lemma X1_sanitizeInput_output_clean_witness :
  In 39%N (sanitizeInput ([0x2018; 0x07]%N ++ lit "a")) /\
  isControl 39%N = false /\ isSingleCurly 39%N = false /\ isDoubleCurly 39%N = false.
Proof.
  assert (Hin : In 39%N (sanitizeInput ([0x2018; 0x07]%N ++ lit "a")))
    by (vm_compute; left; reflexivity).
  exact (conj Hin (X1_sanitizeInput_output_clean _ _ Hin)).
Defined.

(** X2: what [sanitizeInput] returns neither starts nor ends with a white
    space character, and is never longer than the raw input. *)
Theorem X2_sanitizeInput_trimmed_not_longer :
  forall raw,
    trimmed (sanitizeInput raw) /\ (length (sanitizeInput raw) <= length raw)%nat.
Proof.
  intro raw. split; [apply trim_trimmed|]. unfold sanitizeInput.
  etransitivity; [apply trim_length|].
  repeat (etransitivity; [apply replaceClass_length; intro; cbn; lia|]). reflexivity.
Qed.

Lemma sanitizeInput_fixed_points :
  forall raw, sanitizeInput raw = raw <-> (Forall settled raw /\ trimmed raw).
Proof.
  intro raw. split.
  - intro E. split.
    + rewrite <- E. apply sanitizeInput_settled.
    + rewrite <- E. unfold sanitizeInput. apply trim_trimmed.
  - intros [Hs Ht]. unfold sanitizeInput.
    rewrite (replaceClass_fixed isControl (fun _ => []) (s := raw)).
    2:{ eapply Forall_impl; [|exact Hs]. intros c [H _]. exact H. }
    rewrite (replaceClass_fixed isSingleCurly (fun _ => [39%N]) (s := raw)).
    2:{ eapply Forall_impl; [|exact Hs]. intros c [_ [H _]]. exact H. }
    rewrite (replaceClass_fixed isDoubleCurly (fun _ => [34%N]) (s := raw)).
    2:{ eapply Forall_impl; [|exact Hs]. intros c [_ [_ H]]. exact H. }
    apply trim_fixed, Ht.
Qed.

(** X3: [sanitizeInput] returns its argument unchanged exactly when the
    argument holds no control character and no curly quote and has no white
    space at either end; in every other case the result differs from the
    input (and the caller logs its sanitizer warning). *)
Theorem X3_sanitizeInput_fixed_points :
  forall raw, sanitizeInput raw = raw <-> (Forall settled raw /\ trimmed raw).
Proof. exact sanitizeInput_fixed_points. Qed.

(** X4: sanitizing and escaping never break a surrogate pair: a raw input
    without an unpaired surrogate gives a processed term without one. *)
Theorem X4_processing_keeps_wellFormed :
  forall raw, isWellFormed raw = true ->
    isWellFormed (processTerm (sanitizeInput raw)) = true.
Proof.
  intros raw Wf. apply processTerm_wellFormed, sanitizeInput_wellFormed, Wf.
Qed.

Lemma X4_processing_keeps_wellFormed_witness :
  isWellFormed ([0x20; 0xD83D; 0xDE00; 0x07]%N ++ lit ")(") = true /\
  isWellFormed (processTerm (sanitizeInput ([0x20; 0xD83D; 0xDE00; 0x07]%N ++ lit ")("))) = true.
Proof.
  split; [reflexivity|]. apply X4_processing_keeps_wellFormed. reflexivity.
Defined.

(** ** The syntax checker, continued *)

Lemma scan_app a b :
  forall k, scan a k = true -> scan (a ++ b) k = scan b 0%Z.
Proof.
  induction a as [|c a IH]; intros k H.
  - cbn [scan] in H. apply Z.eqb_eq in H. subst. reflexivity.
  - cbn [app scan] in *. destruct (k + depthStep c <? 0)%Z; [discriminate|].
    apply IH, H.
Qed.

Lemma jseq_eq a : forall b, jseq a b = true <-> a = b.
Proof.
  induction a as [|x a IH]; intros [|y b]; cbn [jseq]; split; try congruence; try discriminate.
  - intro H. apply andb_true_iff in H. destruct H as [Hx Ha].
    apply N.eqb_eq in Hx. apply IH in Ha. congruence.
  - intro H. injection H as -> ->. rewrite N.eqb_refl. apply IH. reflexivity.
Qed.

(** X5: a balanced string followed by any string is balanced exactly when
    the second string is; in particular two balanced strings concatenate
    to a balanced one. *)
Theorem X5_isSyntaxSafe_append :
  forall a b, isSyntaxSafe a = true -> isSyntaxSafe (a ++ b) = isSyntaxSafe b.
Proof.
  intros a b H. rewrite !isSyntaxSafe_scan in *. apply scan_app, H.
Qed.

Lemma X5_isSyntaxSafe_append_witness :
  isSyntaxSafe (lit "(a)") = true /\
  isSyntaxSafe (lit "(a)" ++ lit "b)") = isSyntaxSafe (lit "b)").
Proof.
  split; [reflexivity|]. apply X5_isSyntaxSafe_append. reflexivity.
Defined.

(** X6: a term without any parenthesis is balanced, and [processTerm]
    returns it unchanged. *)
Theorem X6_processTerm_without_parentheses :
  forall term, parenCount term = 0%nat ->
    isSyntaxSafe term = true /\ processTerm term = term.
Proof.
  intros term H.
  assert (Safe : isSyntaxSafe term = true)
    by (rewrite isSyntaxSafe_scan, (scan_no_paren term H); reflexivity).
  split; [exact Safe|]. unfold processTerm. rewrite Safe. reflexivity.
Qed.

Lemma X6_processTerm_without_parentheses_witness :
  parenCount (lit "red fox") = 0%nat /\
  isSyntaxSafe (lit "red fox") = true /\ processTerm (lit "red fox") = lit "red fox".
Proof.
  split; [reflexivity|]. apply X6_processTerm_without_parentheses. reflexivity.
Defined.

(** ** The term processor, continued *)

Lemma escapeParens_injective a b : escapeParens a = escapeParens b -> a = b.
Proof.
  intro H. rewrite <- (unescape_escapeParens a), <- (unescape_escapeParens b), H.
  reflexivity.
Qed.

Lemma processTerm_verdict t : isSyntaxSafe (processTerm t) = isSyntaxSafe t.
Proof.
  unfold processTerm. destruct (isSyntaxSafe t) eqn:Safe; [exact Safe|].
  rewrite isSyntaxSafe_escapeParens. exact Safe.
Qed.

(** X7: [processTerm] is injective: two different terms never give the
    same processed term. *)
Theorem X7_processTerm_injective :
  forall a b, processTerm a = processTerm b -> a = b.
Proof.
  intros a b H.
  pose proof (processTerm_verdict a) as Ka. pose proof (processTerm_verdict b) as Kb.
  rewrite H in Ka. rewrite Ka in Kb. unfold processTerm in H.
  destruct (isSyntaxSafe a); rewrite <- Kb in H;
    [exact H | apply escapeParens_injective, H].
Qed.

Lemma X7_processTerm_injective_witness :
  processTerm (lit "a)") = processTerm (lit "a)") /\ lit "a)" = lit "a)".
Proof.
  split; [reflexivity|]. apply X7_processTerm_injective. reflexivity.
Defined.

(** ** Words and the decay factor *)

Lemma split_length sep s :
  length (split sep s) = S (length (filter (fun c => N.eqb c sep) s)).
Proof.
  induction s as [|c s IH]; [reflexivity|].
  cbn [split filter]. destruct (N.eqb c sep).
  - cbn [length]. rewrite IH. reflexivity.
  - destruct (split sep s) as [|seg segs]; [discriminate|]. exact IH.
Qed.

Lemma wordCountOf_spaces t : wordCountOf t = Z.of_nat (S (spaceCount t)).
Proof. unfold wordCountOf, spaceCount. rewrite split_length. reflexivity. Qed.

Lemma escapeParens_spaceCount t : spaceCount (escapeParens t) = spaceCount t.
Proof.
  unfold spaceCount. induction t as [|c t IH]; [reflexivity|].
  rewrite escapeParens_cons. destruct (isParen c) eqn:E; cbn [filter].
  - assert (N.eqb c space = false).
    { unfold isParen, space in *. apply N.eqb_neq.
      apply orb_true_iff in E; destruct E as [E|E]; unit_arith. }
    rewrite H. cbn. exact IH.
  - destruct (N.eqb c space); cbn [length]; rewrite IH; reflexivity.
Qed.

(** X8: the word count is one more than the number of space characters of
    the term (so an empty term counts one word and every further blank one
    more), and escaping does not change it: the word count of the processed
    term is that of the sanitized term. *)
Theorem X8_wordCount_counts_spaces :
  forall t,
    wordCountOf t = Z.of_nat (S (spaceCount t)) /\
    wordCountOf (processTerm t) = wordCountOf t.
Proof.
  intro t. split; [apply wordCountOf_spaces|].
  unfold processTerm. destruct (isSyntaxSafe t); [reflexivity|].
  rewrite !wordCountOf_spaces, escapeParens_spaceCount. reflexivity.
Qed.

(** X9: the decay factor lies between 1 and 31: it is 32 minus the word
    count up to 31 words and 1 from 31 words on; App.tsx computes the same
    number as [o]. *)
Theorem X9_decayFactor_range :
  forall t,
    (1 <= Part000.decayFactorOf t <= 31)%Z /\
    Part000.decayFactorOf t = (if (wordCountOf t <=? 31)%Z then 32 - wordCountOf t else 1)%Z /\
    AppTsx.oOf t = Part000.decayFactorOf t.
Proof.
  intro t. unfold Part000.decayFactorOf, AppTsx.oOf.
  pose proof (wordCountOf_spaces t) as Hw.
  destruct (wordCountOf t <=? 31)%Z eqn:E;
    [apply Z.leb_le in E | apply Z.leb_gt in E]; repeat split; lia.
Qed.

(** ** The iteration count, continued *)

(** X10: in part_000 the number of site clauses never grows with the vector
    index: vector 0 has [density] of them (1 if the density is below 1),
    and from one index to a later one the count drops by the decay factor
    per step until it reaches the floor of 1. *)
Theorem X10_iterations_decay :
  forall term density i j, (0 <= i <= j)%Z ->
    let k := Part000.decayFactorOf term in
    (Part000.iterationsOf density k j <= Part000.iterationsOf density k i)%Z /\
    Part000.iterationsOf density k 0 = Z.max density 1 /\
    ((1 < Part000.iterationsOf density k j)%Z ->
     (Part000.iterationsOf density k i - Part000.iterationsOf density k j = (j - i) * k)%Z).
Proof.
  intros term density i j Hij k.
  assert (Hk : (1 <= k)%Z) by (unfold k, Part000.decayFactorOf; lia).
  unfold Part000.iterationsOf.
  assert (Hm : (i * k <= j * k)%Z) by nia.
  repeat split; [lia | f_equal; lia | intro H; lia].
Qed.

Lemma X10_iterations_decay_witness :
  (0 <= 2 <= 5)%Z /\
  (Part000.iterationsOf 257 (Part000.decayFactorOf (lit "red fox")) 5
   <= Part000.iterationsOf 257 (Part000.decayFactorOf (lit "red fox")) 2)%Z /\
  Part000.iterationsOf 257 (Part000.decayFactorOf (lit "red fox")) 0 = Z.max 257 1.
Proof.
  assert (H : (0 <= 2 <= 5)%Z) by lia.
  destruct (X10_iterations_decay (lit "red fox") 257 H) as [H1 [H2 _]].
  exact (conj H (conj H1 H2)).
Defined.

Lemma fragment_length ii : (13 <= length (fragment ii))%nat.
Proof. unfold fragment. rewrite !length_app. cbn. lia. Qed.

Lemma siteClauses_length bound : (1 <= bound)%Z -> (13 <= length (siteClauses bound))%nat.
Proof.
  intro H. rewrite siteClauses_concat.
  replace (Z.to_nat bound) with (S (Z.to_nat (bound - 1))) by lia.
  cbn [upto map concat]. rewrite length_app. pose proof (fragment_length 0). lia.
Qed.

Lemma clause_empty_iff bound : slice (siteClauses bound) 0 (-1) = [] <-> (bound <= 0)%Z.
Proof.
  split.
  - intro E. destruct (Z_le_gt_dec bound 0) as [H|H]; [exact H|]. exfalso.
    pose proof (slice_drop_last_length (siteClauses bound)) as L.
    rewrite E in L. pose proof (siteClauses_length (bound := bound) ltac:(lia)). cbn in L. lia.
  - intro H. rewrite siteClauses_nonpositive by exact H. reflexivity.
Qed.

(** X11: in part_000 the clause string is never empty, whatever the
    parameters: it is the fragments of the indices below [iterations - 1]
    in full followed by the last fragment without its bar, so it ends with
    the blank that stood before the bar. *)
Theorem X11_Part000_clause_shape :
  forall density decayFactor i,
    let iterations := Part000.iterationsOf density decayFactor i in
    Part000.queryPartOf iterations <> [] /\
    Part000.queryPartOf iterations =
    concat (map fragment (upto (Z.to_nat (iterations - 1)) 0%Z))
    ++ lit "site:*.*." ++ numberToString (iterations - 1) ++ lit ".* ".
Proof.
  intros density decayFactor i iterations.
  assert (H : (1 <= iterations)%Z) by (unfold iterations, Part000.iterationsOf; lia).
  split.
  - unfold Part000.queryPartOf. rewrite clause_empty_iff. lia.
  - exact (proj2 (proj2 (Part000_clause_string iterations)) H).
Qed.

(** X12: in App.tsx the clause string of vector [i] has
    [max (257 - i * o) 0] fragments, and among the ten vectors it is empty
    exactly at index 9 for a term of at most three words. *)
Theorem X12_AppTsx_empty_clause :
  forall term i, (0 <= i < AppTsx.maxUrls)%Z ->
    AppTsx.queryPartOf (AppTsx.oOf term) i =
    removelast (concat (map fragment
      (upto (Z.to_nat (Z.max (257 - i * AppTsx.oOf term) 0)) 0%Z))) /\
    (AppTsx.queryPartOf (AppTsx.oOf term) i = [] <-> (i = 9 /\ wordCountOf term <= 3)%Z).
Proof.
  intros term i Hi. unfold AppTsx.maxUrls in Hi. split.
  - rewrite AppTsx_clause_string. do 4 f_equal. lia.
  - unfold AppTsx.queryPartOf. rewrite clause_empty_iff.
    unfold AppTsx.loopBound, AppTsx.oOf.
    pose proof (wordCountOf_spaces term) as Hw.
    assert (Hi' : (Z.to_nat i < 10)%nat) by lia.
    rewrite <- (Z2Nat.id i) by lia.
    revert Hi'. generalize (Z.to_nat i) as m. intros m Hm.
    do 10 (destruct m as [|m]; [cbn [Z.of_nat Pos.of_succ_nat Pos.succ]; lia|]). lia.
Qed.

Lemma X12_AppTsx_empty_clause_witness :
  (0 <= 9 < AppTsx.maxUrls)%Z /\
  (AppTsx.queryPartOf (AppTsx.oOf (lit "a b c")) 9 = [] <->
   (9 = 9 /\ wordCountOf (lit "a b c") <= 3)%Z).
Proof.
  assert (H : (0 <= 9 < AppTsx.maxUrls)%Z) by (unfold AppTsx.maxUrls; lia).
  exact (conj H (proj2 (X12_AppTsx_empty_clause (lit "a b c") H))).
Defined.

(** ** The three vector loops against each other *)

Lemma AppTsxV21_vectorLoop_pushLoop term o n :
  forall i acc,
    AppTsxV21.vectorLoop term o n i acc = pushLoop (AppTsxV21.vectorAt term o) n i acc.
Proof.
  induction n as [|n IH]; intros i acc; cbn [AppTsxV21.vectorLoop pushLoop]; [reflexivity|].
  destruct (AppTsxV21.vectorAt term o i); [apply IH | reflexivity].
Qed.

Lemma pushLoop_ext body1 body2 n :
  forall i acc,
    (forall k, (k < n)%nat -> body1 (i + Z.of_nat k)%Z = body2 (i + Z.of_nat k)%Z) ->
    pushLoop body1 n i acc = pushLoop body2 n i acc.
Proof.
  induction n as [|n IH]; intros i acc H; cbn [pushLoop]; [reflexivity|].
  pose proof (H 0%nat ltac:(lia)) as H0. rewrite Z.add_0_r in H0. rewrite H0.
  destruct (body2 i); [|reflexivity].
  apply IH. intros k Hk. specialize (H (S k) ltac:(lia)).
  replace (i + 1 + Z.of_nat k)%Z with (i + Z.of_nat (S k))%Z by lia. exact H.
Qed.

Lemma pushLoop_map (f : jsstring -> jsstring) body n :
  forall i acc,
    pushLoop (fun k => option_map f (body k)) n i (map f acc) =
    option_map (map f) (pushLoop body n i acc).
Proof.
  induction n as [|n IH]; intros i acc; cbn [pushLoop]; [reflexivity|].
  destruct (body i) as [u|]; cbn [option_map]; [|reflexivity].
  rewrite <- IH, map_app. reflexivity.
Qed.

(** X13: App.tsx returns exactly ten URLs, the URL of index [i] at position
    [i], for every term without an unpaired surrogate, and throws on every
    other term. *)
Theorem X13_AppTsx_ten_urls :
  forall term,
    (isWellFormed term = true ->
       exists urls,
         AppTsx.generateUrls term = Some urls /\ length urls = 10%nat /\
         forall i, (i < 10)%nat ->
           nth_error urls i = AppTsx.vectorAt term (AppTsx.oOf term) (Z.of_nat i)) /\
    (isWellFormed term = false -> AppTsx.generateUrls term = None).
Proof.
  intro term. split.
  - apply AppTsx_generateUrls_wellFormed.
  - intro Wf. unfold AppTsx.generateUrls. rewrite AppTsx_vectorLoop_pushLoop.
    apply pushLoop_throws.
    pose proof (AppTsx_vectorAt_returns term (AppTsx.oOf term) 0) as R. rewrite Wf in R.
    destruct (AppTsx.vectorAt term (AppTsx.oOf term) 0); [discriminate | reflexivity].
Qed.

Lemma X13_AppTsx_ten_urls_witness :
  isWellFormed (lit "test") = true /\
  exists urls,
    AppTsx.generateUrls (lit "test") = Some urls /\ length urls = 10%nat /\
    forall i, (i < 10)%nat ->
      nth_error urls i = AppTsx.vectorAt (lit "test") (AppTsx.oOf (lit "test")) (Z.of_nat i).
Proof.
  split; [reflexivity|]. exact (proj1 (X13_AppTsx_ten_urls (lit "test")) eq_refl).
Defined.

(** X14: the second terminal kept the query logic of the first: on the
    same term both loops of App.tsx give the same result, and on an input
    without control characters and curly quotes whose trimmed form is
    balanced the second terminal searches exactly the term of the first. *)
Theorem X14_AppTsx_preserved_logic :
  forall input,
    AppTsx.generateUrls input = AppTsxV21.generateUrls input /\
    (Forall settled input -> isSyntaxSafe (trim input) = true ->
     processTerm (sanitizeInput input) = trim input).
Proof.
  intro input. split.
  - unfold AppTsx.generateUrls, AppTsxV21.generateUrls.
    rewrite AppTsx_vectorLoop_pushLoop, AppTsxV21_vectorLoop_pushLoop. reflexivity.
  - intros Hs Safe.
    assert (E : sanitizeInput input = trim input).
    { unfold sanitizeInput.
      rewrite (replaceClass_fixed isControl (fun _ => []) (s := input)).
      2:{ eapply Forall_impl; [|exact Hs]. intros c [H _]. exact H. }
      rewrite (replaceClass_fixed isSingleCurly (fun _ => [39%N]) (s := input)).
      2:{ eapply Forall_impl; [|exact Hs]. intros c [_ [H _]]. exact H. }
      rewrite (replaceClass_fixed isDoubleCurly (fun _ => [34%N]) (s := input)).
      2:{ eapply Forall_impl; [|exact Hs]. intros c [_ [_ H]]. exact H. }
      reflexivity. }
    rewrite E. unfold processTerm. rewrite Safe. reflexivity.
Qed.

Lemma X14_AppTsx_preserved_logic_witness :
  Forall settled (lit " (a) b ") /\ isSyntaxSafe (trim (lit " (a) b ")) = true /\
  processTerm (sanitizeInput (lit " (a) b ")) = trim (lit " (a) b ").
Proof.
  assert (Hs : Forall settled (lit " (a) b ")) by (repeat constructor).
  assert (Safe : isSyntaxSafe (trim (lit " (a) b ")) = true) by reflexivity.
  exact (conj Hs (conj Safe (proj2 (X14_AppTsx_preserved_logic (lit " (a) b ")) Hs Safe))).
Defined.

Lemma Part000_vectorAt_default term i :
  (1 <= 257 - i * AppTsx.oOf term)%Z ->
  Part000.vectorAt term 257 0 (Part000.decayFactorOf term) i =
  option_map (fun u => u ++ lit "&start=0") (AppTsx.vectorAt term (AppTsx.oOf term) i).
Proof.
  intro H. unfold Part000.vectorAt, AppTsx.vectorAt, Part000.searchUrlOf,
    Part000.queryPartOf, AppTsx.queryPartOf, Part000.iterationsOf, AppTsx.loopBound,
    Part000.decayFactorOf, AppTsx.oOf in *.
  rewrite Z.max_l by lia.
  destruct (encodeURIComponent _); cbn [option_map]; [|reflexivity].
  rewrite <- !app_assoc. reflexivity.
Qed.

(** X15: with the sliders at their defaults (ten vectors, density 257, no
    page offset) part_000 gives at every index whose bound [257 - i * o] is
    at least 1 the URL of App.tsx followed by [&start=0]; for a term of
    four words or more that holds for the whole list. *)
Theorem X15_defaults_agree_with_AppTsx :
  forall term,
    (forall i, (1 <= 257 - i * AppTsx.oOf term)%Z ->
       Part000.vectorAt term 257 0 (Part000.decayFactorOf term) i =
       option_map (fun u => u ++ lit "&start=0")
         (AppTsx.vectorAt term (AppTsx.oOf term) i)) /\
    ((4 <= wordCountOf term)%Z ->
       Part000.buildVectors term 10 257 0 =
       option_map (map (fun u => u ++ lit "&start=0")) (AppTsx.generateUrls term)).
Proof.
  intro term. split; [intro i; apply Part000_vectorAt_default|].
  intro Hw. unfold Part000.buildVectors, AppTsx.generateUrls.
  rewrite Part000_vectorLoop_pushLoop, AppTsx_vectorLoop_pushLoop.
  change (@nil jsstring) with (map (fun u => u ++ lit "&start=0") (@nil jsstring)) at 1.
  rewrite <- pushLoop_map. apply pushLoop_ext.
  intros k Hk. apply Part000_vectorAt_default.
  change (Z.to_nat AppTsx.maxUrls) with 10%nat in Hk. unfold AppTsx.oOf.
  set (o := Z.max (32 - wordCountOf term) 1).
  assert (Ho : (1 <= o <= 28)%Z) by (unfold o; lia).
  nia.
Qed.

Lemma X15_defaults_agree_with_AppTsx_witness :
  (4 <= wordCountOf (lit "a b c d"))%Z /\
  Part000.buildVectors (lit "a b c d") 10 257 0 =
  option_map (map (fun u => u ++ lit "&start=0")) (AppTsx.generateUrls (lit "a b c d")).
Proof.
  assert (H : (4 <= wordCountOf (lit "a b c d"))%Z) by (vm_compute; discriminate).
  exact (conj H (proj2 (X15_defaults_agree_with_AppTsx (lit "a b c d")) H)).
Defined.

(** ** The encoded query *)

Lemma optApp_cons x o o' :
  optApp (option_map (cons x) o) o' = option_map (cons x) (optApp o o').
Proof. destruct o, o'; reflexivity. Qed.

Lemma optApp_app p o o' :
  optApp (option_map (app p) o) o' = option_map (app p) (optApp o o').
Proof. destruct o, o'; cbn; try reflexivity. rewrite app_assoc. reflexivity. Qed.

(** After a well-formed string the encoding starts afresh. *)
Lemma encodeURIComponent_app a b :
  isWellFormed a = true ->
  encodeURIComponent (a ++ b) = optApp (encodeURIComponent a) (encodeURIComponent b).
Proof.
  induction a as [|x|x y l IHl IHyl] using list_pair_ind; intro Wf.
  - cbn. destruct (encodeURIComponent b); reflexivity.
  - destruct (plain_tests (isWellFormed_single x Wf)) as [Tx Lx].
    change ([x] ++ b) with (x :: b).
    rewrite (encodeURIComponent_cons x b), (encodeURIComponent_cons x []), Tx, Lx.
    destruct (isUnreserved x); cbn [encodeURIComponent option_map optApp];
      destruct (encodeURIComponent b); cbn; rewrite ?app_nil_r; reflexivity.
  - change ((x :: y :: l) ++ b) with (x :: y :: (l ++ b)).
    rewrite (encodeURIComponent_cons x (y :: l ++ b)), (encodeURIComponent_cons x (y :: l)).
    rewrite (isWellFormed_cons x (y :: l)) in Wf.
    destruct (isUnreserved x) eqn:U.
    + destruct (plain_tests (isUnreserved_plain x U)) as [Tx Lx].
      rewrite Tx, Lx in Wf. rewrite optApp_cons. f_equal. exact (IHyl Wf).
    + destruct (isTrail x); [discriminate|]. destruct (isLead x).
      * apply andb_true_iff in Wf. destruct Wf as [Ty Wl]. rewrite Ty.
        rewrite optApp_app. f_equal. exact (IHl Wl).
      * rewrite optApp_app. f_equal. exact (IHyl Wf).
Qed.

Lemma encodeURIComponent_unreserved s :
  Forall (fun c => isUnreserved c = true) s -> encodeURIComponent s = Some s.
Proof.
  induction 1 as [|c s Hc _ IH]; [reflexivity|].
  rewrite encodeURIComponent_cons, Hc, IH. reflexivity.
Qed.

Lemma lit_cons a s : lit (String a s) = N_of_ascii a :: lit s.
Proof. reflexivity. Qed.

Lemma digits_unreserved d :
  Forall (fun c => isUnreserved c = true) (lit (NilEmpty.string_of_uint d)).
Proof.
  induction d; cbn [NilEmpty.string_of_uint]; try rewrite lit_cons;
    constructor; first [reflexivity | assumption].
Qed.

Lemma numeral_unreserved d :
  Forall (fun c => isUnreserved c = true) (lit (NilZero.string_of_uint d)).
Proof.
  assert (H : NilZero.string_of_uint d = "0"%string
              \/ NilZero.string_of_uint d = NilEmpty.string_of_uint d)
    by (destruct d; auto).
  destruct H as [-> | ->]; [repeat constructor | apply digits_unreserved].
Qed.

Lemma numberToString_unreserved z :
  Forall (fun c => isUnreserved c = true) (numberToString z).
Proof.
  unfold numberToString, NilZero.string_of_int.
  destruct (Z.to_int z) as [d|d]; [apply numeral_unreserved|].
  rewrite lit_cons. constructor; [reflexivity | apply numeral_unreserved].
Qed.

Lemma encodeURIComponent_fragment ii :
  encodeURIComponent (fragment ii) = Some (encodedFragment ii).
Proof.
  unfold fragment, encodedFragment.
  rewrite encodeURIComponent_app by (apply isWellFormed_plain, lit_plain).
  rewrite encodeURIComponent_app by (apply isWellFormed_plain, numberToString_plain).
  rewrite (encodeURIComponent_unreserved (numberToString_unreserved ii)).
  reflexivity.
Qed.

Lemma encodeURIComponent_fragments l :
  encodeURIComponent (concat (map fragment l)) = Some (concat (map encodedFragment l)).
Proof.
  induction l as [|ii l IH]; [reflexivity|].
  cbn [map concat].
  rewrite encodeURIComponent_app
    by (apply isWellFormed_plain; unfold fragment;
        repeat (apply Forall_app; split); first [apply lit_plain | apply numberToString_plain]).
  rewrite encodeURIComponent_fragment, IH. reflexivity.
Qed.

Lemma encodeURIComponent_clause iterations :
  (1 <= iterations)%Z ->
  encodeURIComponent (Part000.queryPartOf iterations) = Some (encodedClause iterations).
Proof.
  intro H. rewrite (proj2 (proj2 (Part000_clause_string iterations)) H).
  unfold encodedClause.
  rewrite encodeURIComponent_app by (apply isWellFormed_plain, fragments_plain).
  rewrite encodeURIComponent_fragments.
  rewrite encodeURIComponent_app by (apply isWellFormed_plain, lit_plain).
  rewrite encodeURIComponent_app by (apply isWellFormed_plain, numberToString_plain).
  rewrite (encodeURIComponent_unreserved (numberToString_unreserved (iterations - 1))).
  reflexivity.
Qed.

Lemma Part000_vectorAt_written_out :
  forall term q density pageOffset decayFactor i,
    encodeURIComponent term = Some q ->
    Part000.vectorAt term density pageOffset decayFactor i =
    Some (lit "https://www.google.com/search?q=(" ++ q ++ lit ")%20("
          ++ encodedClause (Part000.iterationsOf density decayFactor i)
          ++ lit ")&start=" ++ numberToString (pageOffset * 10)).
Proof.
  intros term q density pageOffset decayFactor i Hq.
  assert (Wf : isWellFormed term = true)
    by (rewrite <- encodeURIComponent_returns, Hq; reflexivity).
  unfold Part000.vectorAt, Part000.searchUrlOf, finalQueryOf.
  change (lit "(" ++ term ++ lit ") (" ++
          Part000.queryPartOf (Part000.iterationsOf density decayFactor i) ++ lit ")")
    with (lit "(" ++ (term ++ (lit ") (" ++
          (Part000.queryPartOf (Part000.iterationsOf density decayFactor i) ++ lit ")")))).
  rewrite encodeURIComponent_app by reflexivity.
  rewrite encodeURIComponent_app by exact Wf.
  rewrite encodeURIComponent_app by reflexivity.
  rewrite encodeURIComponent_app by (apply isWellFormed_plain, clause_plain).
  rewrite Hq, encodeURIComponent_clause by (unfold Part000.iterationsOf; lia).
  change (encodeURIComponent (lit "(")) with (Some (lit "(")).
  change (encodeURIComponent (lit ") (")) with (Some (lit ")%20(")).
  change (encodeURIComponent (lit ")")) with (Some (lit ")")).
  cbn [optApp option_map]. rewrite <- !app_assoc. reflexivity.
Qed.

(** X16: the URL of a part_000 vector, written out: the endpoint, the
    encoded term between parentheses, [%20], the encoded clause string
    between parentheses (fragments [site%3A*.*.<ii>.*%20%7C], the last one
    without [%7C]) and [&start=] with ten times the page offset. The term
    is encoded on its own: nothing of the clause depends on it but the
    number of fragments. *)
Theorem X16_Part000_url_written_out :
  forall term q density pageOffset decayFactor i,
    encodeURIComponent term = Some q ->
    Part000.vectorAt term density pageOffset decayFactor i =
    Some (lit "https://www.google.com/search?q=(" ++ q ++ lit ")%20("
          ++ encodedClause (Part000.iterationsOf density decayFactor i)
          ++ lit ")&start=" ++ numberToString (pageOffset * 10)).
Proof. exact Part000_vectorAt_written_out. Qed.

Lemma X16_Part000_url_written_out_witness :
  encodeURIComponent (processTerm (lit "a)b(")) = Some (lit "a%5C)b%5C(") /\
  Part000.vectorAt (processTerm (lit "a)b(")) 257 2 31 8 =
  Some (lit "https://www.google.com/search?q=(" ++ lit "a%5C)b%5C(" ++ lit ")%20("
        ++ encodedClause (Part000.iterationsOf 257 31 8)
        ++ lit ")&start=" ++ numberToString (2 * 10)).
Proof.
  split; [reflexivity|]. apply X16_Part000_url_written_out. reflexivity.
Defined.

(** ** The characters of a URL *)

Lemma hexDigit_unreserved n : (n < 16)%N -> isUnreserved (hexDigit n) = true.
Proof.
  intro H. rewrite <- (N2Nat.id n).
  assert (Hm : (N.to_nat n < 16)%nat) by lia.
  revert Hm. generalize (N.to_nat n) as m. intros m Hm.
  do 16 (destruct m as [|m]; [reflexivity|]). lia.
Qed.

Lemma percent_chars octet :
  (octet < 256)%N -> Forall (fun c => isComponentChar c = true) (percent octet).
Proof.
  intro H. unfold percent, isComponentChar.
  repeat constructor.
  - rewrite hexDigit_unreserved; [reflexivity|].
    apply N.Div0.div_lt_upper_bound. lia.
  - rewrite hexDigit_unreserved; [reflexivity|]. apply N.mod_lt. discriminate.
Qed.

Lemma utf8_octets cp : (cp < 0x110000)%N -> Forall (fun o => (o < 256)%N) (utf8 cp).
Proof.
  intro H. unfold utf8.
  assert (M : forall a, (a mod 64 < 64)%N) by (intro a; apply N.mod_lt; discriminate).
  destruct (N.ltb cp 0x80) eqn:E1; [apply N.ltb_lt in E1; repeat constructor; lia|].
  destruct (N.ltb cp 0x800) eqn:E2.
  { apply N.ltb_lt in E2.
    assert ((cp / 64 < 32)%N) by (apply N.Div0.div_lt_upper_bound; lia).
    pose proof (M cp). repeat constructor; lia. }
  destruct (N.ltb cp 0x10000) eqn:E3.
  { apply N.ltb_lt in E3.
    assert ((cp / 4096 < 16)%N) by (apply N.Div0.div_lt_upper_bound; lia).
    pose proof (M cp). pose proof (M (cp / 64)%N). repeat constructor; lia. }
  assert ((cp / 262144 < 5)%N) by (apply N.Div0.div_lt_upper_bound; lia).
  pose proof (M cp). pose proof (M (cp / 64)%N). pose proof (M (cp / 4096)%N).
  repeat constructor; lia.
Qed.

Lemma escapeCodePoint_chars cp :
  (cp < 0x110000)%N -> Forall (fun c => isComponentChar c = true) (escapeCodePoint cp).
Proof.
  intro H. unfold escapeCodePoint.
  pose proof (utf8_octets H) as Ho. induction Ho as [|o l Ho _ IH]; [constructor|].
  cbn [flat_map]. apply Forall_app. split; [apply percent_chars, Ho | exact IH].
Qed.

Lemma pairCodePoint_range c d :
  isLead c = true -> isTrail d = true -> (pairCodePoint c d < 0x110000)%N.
Proof.
  unfold isLead, isTrail, pairCodePoint. intros Hc Hd. unit_arith.
Qed.

Lemma Forall_option_map_app (P : codeunit -> Prop) p o q :
  Forall P p -> (forall r, o = Some r -> Forall P r) ->
  option_map (app p) o = Some q -> Forall P q.
Proof.
  intros Hp Ho E. destruct o as [r|]; [|discriminate].
  injection E as <-. apply Forall_app. split; [exact Hp | apply Ho; reflexivity].
Qed.

(** On 16-bit code units [encodeURIComponent] writes unreserved
    characters and percent signs only. *)
Lemma encodeURIComponent_chars s :
  Forall is16bit s ->
  forall q, encodeURIComponent s = Some q -> Forall (fun c => isComponentChar c = true) q.
Proof.
  induction s as [|x|x y l IHl IHyl] using list_pair_ind; intros H16 q E.
  - injection E as <-. constructor.
  - rewrite encodeURIComponent_cons in E. apply Forall_inv in H16.
    destruct (isUnreserved x) eqn:U.
    + injection E as <-. repeat constructor. unfold isComponentChar. rewrite U. reflexivity.
    + destruct (isTrail x); [discriminate|]. destruct (isLead x); [discriminate|].
      cbn in E. injection E as <-. rewrite app_nil_r.
      apply escapeCodePoint_chars. unfold is16bit in H16. lia.
  - rewrite (encodeURIComponent_cons x (y :: l)) in E.
    pose proof (Forall_inv H16) as Hx. pose proof (Forall_inv_tail H16) as Hyl.
    pose proof (Forall_inv_tail Hyl) as Hl.
    destruct (isUnreserved x) eqn:U.
    + destruct (encodeURIComponent (y :: l)) as [r|]; [|discriminate].
      injection E as <-. constructor; [unfold isComponentChar; rewrite U; reflexivity|].
      apply IHyl; [exact Hyl | reflexivity].
    + destruct (isTrail x); [discriminate|]. destruct (isLead x) eqn:Lx.
      * destruct (isTrail y) eqn:Ty; [|discriminate].
        eapply Forall_option_map_app; [| |exact E].
        -- apply escapeCodePoint_chars, pairCodePoint_range; assumption.
        -- intros r Hr. apply IHl; assumption.
      * eapply Forall_option_map_app; [| |exact E].
        -- apply escapeCodePoint_chars. unfold is16bit in Hx. lia.
        -- intros r Hr. apply IHyl; assumption.
Qed.

Lemma componentChar_urlChar c : isComponentChar c = true -> isUrlChar c = true.
Proof. unfold isUrlChar. intros ->. reflexivity. Qed.

Lemma unreserved_urlChar c : isUnreserved c = true -> isUrlChar c = true.
Proof. unfold isUrlChar, isComponentChar. intros ->. reflexivity. Qed.

Lemma forallb_urlChars s : forallb isUrlChar s = true -> Forall (fun c => isUrlChar c = true) s.
Proof. intro H. apply Forall_forall. apply forallb_forall. exact H. Qed.

Lemma encodedClause_urlChars iterations :
  Forall (fun c => isUrlChar c = true) (encodedClause iterations).
Proof.
  assert (Hn : forall z, Forall (fun c => isUrlChar c = true) (numberToString z)).
  { intro z. eapply Forall_impl; [|apply numberToString_unreserved].
    exact unreserved_urlChar. }
  unfold encodedClause. apply Forall_app. split.
  - induction (upto (Z.to_nat (iterations - 1)) 0%Z) as [|ii l IH]; [constructor|].
    cbn [map concat]. apply Forall_app. split; [|exact IH].
    unfold encodedFragment. repeat (apply Forall_app; split);
      first [apply Hn | apply forallb_urlChars; reflexivity].
  - repeat (apply Forall_app; split);
      first [apply Hn | apply forallb_urlChars; reflexivity].
Qed.

Lemma Some_eq (A : Type) (a b : A) : Some a = Some b -> a = b.
Proof. congruence. Qed.

(** X17: for a term of 16-bit code units every URL part_000 returns is
    written with unreserved characters (letters, digits and
    [- _ . ! ~ * ' ( )]), the percent sign and [: / ? = &] only: no blank,
    no bar, no backslash, nothing beyond ASCII. *)
Theorem X17_Part000_url_characters :
  forall term vectorCount density pageOffset urls url,
    Forall is16bit term ->
    Part000.buildVectors term vectorCount density pageOffset = Some urls ->
    In url urls ->
    Forall (fun c => isUrlChar c = true) url.
Proof.
  intros term vectorCount density pageOffset urls url H16 E Hin.
  destruct (In_nth_error _ _ Hin) as [i Hi].
  pose proof (Part000_buildVectors_nth _ _ _ _ _ E Hi) as Hv.
  assert (Wf : isWellFormed term = true).
  { rewrite <- (Part000_vectorAt_returns term density pageOffset
                  (Part000.decayFactorOf term) (Z.of_nat i)), Hv. reflexivity. }
  destruct (encodeURIComponent_wellFormed term Wf) as [q Hq].
  rewrite (@Part000_vectorAt_written_out term q density pageOffset
             (Part000.decayFactorOf term) (Z.of_nat i) Hq) in Hv.
  apply Some_eq in Hv. subst url.
  apply Forall_app; split; [apply forallb_urlChars; reflexivity|].
  apply Forall_app; split.
  { eapply Forall_impl; [|exact (encodeURIComponent_chars H16 Hq)].
    exact componentChar_urlChar. }
  apply Forall_app; split; [apply forallb_urlChars; reflexivity|].
  apply Forall_app; split; [apply encodedClause_urlChars|].
  apply Forall_app; split; [apply forallb_urlChars; reflexivity|].
  eapply Forall_impl; [|apply numberToString_unreserved]. exact unreserved_urlChar.
Qed.

Lemma X17_Part000_url_characters_witness :
  exists urls url,
    Forall is16bit [0x41; 0x20; 0xE9; 0xD83D; 0xDE00]%N /\
    Part000.buildVectors [0x41; 0x20; 0xE9; 0xD83D; 0xDE00]%N 1 128 9 = Some urls /\
    In url urls /\
    Forall (fun c => isUrlChar c = true) url.
Proof.
  assert (H16 : Forall is16bit [0x41; 0x20; 0xE9; 0xD83D; 0xDE00]%N)
    by (repeat constructor).
  eexists. eexists. split; [exact H16|].
  split; [vm_compute; reflexivity|]. split; [left; reflexivity|].
  eapply (@X17_Part000_url_characters _ 1%Z 128%Z 9%Z _ _ H16);
    [vm_compute; reflexivity | left; reflexivity].
Defined.

(** ** Requests, continued *)

(** The entries a part_000 request logs, in their order. *)
Lemma Part000_executeSearch_log windowOpen st :
  jseq (trim (Part000.input st)) [] = false ->
  Part000.isBooting st = false ->
  Part000.logs (fst (Part000.executeSearch windowOpen st)) =
  Part000.logs st
  ++ [mkLog (lit "CMD: EXEC_V_SEARCH [" ++ Part000.input st ++ lit "]") user]
  ++ (if jseq (Part000.input st) (sanitizeInput (Part000.input st))
      then [] else [sanitizerWarning])
  ++ (if isSyntaxSafe (sanitizeInput (Part000.input st)) then [] else [syntaxAlert])
  ++ (if (600 <? Part000.density st)%Z then [densityRisk] else [])
  ++ match Part000.buildVectors (processTerm (sanitizeInput (Part000.input st)))
             (Part000.vectorCount st) (Part000.density st) (Part000.pageOffset st) with
     | Some urls =>
         [mkLog (lit "COMPUTATION SUCCESS: " ++ numberToString (Part000.vectorCount st)
                 ++ lit " VECTORS READY") success;
          mkLog (lit "REDIRECTING TO PRIMARY VECTOR...") info]
         ++ (if windowOpen (nth_error urls 0) then [] else [popupWarning])
     | None => []
     end.
Proof.
  intros Hin Hboot. unfold Part000.executeSearch.
  rewrite Hin, Hboot. cbn [orb]. run_fields.
  destruct (jseq (Part000.input st) (sanitizeInput (Part000.input st)));
  destruct (isSyntaxSafe (sanitizeInput (Part000.input st)));
  destruct (600 <? Part000.density st)%Z eqn:Risk;
  run_fields; rewrite ?Risk; run_fields;
  destruct (Part000.buildVectors _ _ _ _) as [urls|];
  try destruct (windowOpen (nth_error urls 0));
  run_fields; cbn [app]; rewrite <- ?app_assoc; reflexivity.
Qed.

(** What a part_000 request leaves alone. *)
Lemma Part000_executeSearch_keeps windowOpen st :
  let st' := fst (Part000.executeSearch windowOpen st) in
  Part000.input st' = Part000.input st /\
  Part000.isBooting st' = Part000.isBooting st /\
  Part000.vectorCount st' = Part000.vectorCount st /\
  Part000.density st' = Part000.density st /\
  Part000.pageOffset st' = Part000.pageOffset st.
Proof.
  unfold Part000.executeSearch.
  destruct (jseq (trim (Part000.input st)) [] || Part000.isBooting st);
    [repeat split|].
  run_fields.
  destruct (negb (jseq (Part000.input st) (sanitizeInput (Part000.input st))));
  destruct (negb (isSyntaxSafe (sanitizeInput (Part000.input st))));
  destruct (600 <? Part000.density st)%Z eqn:Risk;
  run_fields; rewrite ?Risk; run_fields;
  destruct (Part000.buildVectors _ _ _ _) as [urls|];
  try destruct (windowOpen (nth_error urls 0));
  run_fields; repeat split.
Qed.

Ltac entry_clash H :=
  first [ apply (f_equal type) in H; cbn in H; discriminate H
        | apply (f_equal message) in H; vm_compute in H; discriminate H ].

Ltac log_cases :=
  repeat match goal with
         | H : In _ (_ ++ _) |- _ => apply in_app_or in H; destruct H as [H|H]
         | H : In _ (_ :: _) |- _ => destruct H as [H|H]
         | H : In _ [] |- _ => destruct H
         | H : mkLog _ _ = _ |- _ => entry_clash H
         end.

Lemma jseq_false a b : jseq a b = false <-> a <> b.
Proof.
  rewrite <- (jseq_eq a b). destruct (jseq a b); split; congruence.
Qed.

(** X18: a part_000 request that passes the guard appends its entries to
    the log and among them the sanitizer warning exactly when
    [sanitizeInput] changed the input (a control character, a curly quote
    or a blank at either end), the syntax alert exactly when the sanitized
    term is unbalanced, the density risk exactly when the density is above
    600, and the popup warning exactly when the URL list was built and
    [window.open] on its first URL was refused. *)
Theorem X18_Part000_diagnostics :
  forall windowOpen st,
    jseq (trim (Part000.input st)) [] = false ->
    Part000.isBooting st = false ->
    exists entries,
      Part000.logs (fst (Part000.executeSearch windowOpen st)) = Part000.logs st ++ entries /\
      (In sanitizerWarning entries <->
         ~ (Forall settled (Part000.input st) /\ trimmed (Part000.input st))) /\
      (In syntaxAlert entries <-> isSyntaxSafe (sanitizeInput (Part000.input st)) = false) /\
      (In densityRisk entries <-> (600 < Part000.density st)%Z) /\
      (In popupWarning entries <->
         exists urls,
           Part000.buildVectors (processTerm (sanitizeInput (Part000.input st)))
             (Part000.vectorCount st) (Part000.density st) (Part000.pageOffset st)
           = Some urls /\ windowOpen (nth_error urls 0) = false).
Proof.
  intros windowOpen st Hin Hboot.
  eexists. split; [apply (Part000_executeSearch_log windowOpen st Hin Hboot)|].
  assert (Hfix : jseq (Part000.input st) (sanitizeInput (Part000.input st)) = true <->
                 (Forall settled (Part000.input st) /\ trimmed (Part000.input st))).
  { rewrite jseq_eq, <- sanitizeInput_fixed_points. split; congruence. }
  destruct (jseq (Part000.input st) (sanitizeInput (Part000.input st))) eqn:Ej;
  destruct (isSyntaxSafe (sanitizeInput (Part000.input st))) eqn:Es;
  destruct (600 <? Part000.density st)%Z eqn:Ed;
  (apply Z.ltb_lt in Ed || apply Z.ltb_ge in Ed);
  destruct (Part000.buildVectors _ _ _ _) as [urls|];
  try destruct (windowOpen (nth_error urls 0)) eqn:Ew;
  unfold sanitizerWarning, syntaxAlert, densityRisk, popupWarning;
  (split; [split; [intro H; log_cases; try (intros Hc; apply Hfix in Hc; discriminate)
                  | intro H; try (exfalso; apply H, Hfix; reflexivity);
                    cbn; auto 10]|]);
  (split; [split; [intro H; log_cases; try reflexivity
                  | intro H; try discriminate; cbn; rewrite ?in_app_iff; cbn; auto 10]|]);
  (split; [split; [intro H; log_cases; try assumption; try lia
                  | intro H; try lia; cbn; rewrite ?in_app_iff; cbn; auto 10]|]);
  (split; [intro H; log_cases; try (eexists; split; [reflexivity | assumption])
          | intros [urls' [Hu Hw]]; try discriminate;
            try (injection Hu as <-; congruence);
            cbn; rewrite ?in_app_iff; cbn; auto 12]).
Qed.

Lemma X18_Part000_diagnostics_witness :
  let st := Part000.mkState (lit " a)") false [] [] false 10 700 0 in
  jseq (trim (Part000.input st)) [] = false /\
  Part000.isBooting st = false /\
  exists entries,
    Part000.logs (fst (Part000.executeSearch (fun _ => false) st)) = Part000.logs st ++ entries /\
    (In sanitizerWarning entries <->
       ~ (Forall settled (Part000.input st) /\ trimmed (Part000.input st))) /\
    (In syntaxAlert entries <-> isSyntaxSafe (sanitizeInput (Part000.input st)) = false) /\
    (In densityRisk entries <-> (600 < Part000.density st)%Z) /\
    (In popupWarning entries <->
       exists urls,
         Part000.buildVectors (processTerm (sanitizeInput (Part000.input st)))
           (Part000.vectorCount st) (Part000.density st) (Part000.pageOffset st)
         = Some urls /\ (fun _ : option jsstring => false) (nth_error urls 0) = false).
Proof.
  intro st.
  assert (Hin : jseq (trim (Part000.input st)) [] = false) by (vm_compute; reflexivity).
  exact (conj Hin (conj eq_refl (X18_Part000_diagnostics (fun _ => false) st Hin eq_refl))).
Defined.

(** X19: none of the three components does anything on an input made of
    white space only (the empty input included), and the two with a boot
    phase do nothing while booting: the state comes back as it was, with
    no log entry and no new vectors. *)
Theorem X19_blank_or_booting_is_ignored :
  (forall windowOpen st,
     Forall (fun c => isWhiteSpace c = true) (Part000.input st) \/ Part000.isBooting st = true ->
     Part000.executeSearch windowOpen st = (st, Returned)) /\
  (forall windowOpen st,
     Forall (fun c => isWhiteSpace c = true) (AppTsx.input st) \/ AppTsx.isBooting st = true ->
     AppTsx.executeSearch windowOpen st = (st, Returned)) /\
  (forall st,
     Forall (fun c => isWhiteSpace c = true) (AppTsxV21.input st) ->
     AppTsxV21.executeSearch st = (st, Returned)).
Proof.
  repeat split.
  - intros w st [H | H]; unfold Part000.executeSearch.
    + rewrite (trim_all_whiteSpace H). reflexivity.
    + rewrite H, orb_true_r. reflexivity.
  - intros w st [H | H]; unfold AppTsx.executeSearch.
    + rewrite (trim_all_whiteSpace H). reflexivity.
    + rewrite H, orb_true_r. reflexivity.
  - intros st H. unfold AppTsxV21.executeSearch.
    rewrite (trim_all_whiteSpace H). reflexivity.
Qed.

Lemma X19_blank_or_booting_is_ignored_witness :
  (Forall (fun c => isWhiteSpace c = true)
     (Part000.input (Part000.mkState [0x20; 0x09; 0x3000]%N false [] [] false 10 257 0))
   \/ Part000.isBooting (Part000.mkState [0x20; 0x09; 0x3000]%N false [] [] false 10 257 0) = true) /\
  Part000.executeSearch (fun _ => true)
    (Part000.mkState [0x20; 0x09; 0x3000]%N false [] [] false 10 257 0)
  = (Part000.mkState [0x20; 0x09; 0x3000]%N false [] [] false 10 257 0, Returned).
Proof.
  assert (H : Forall (fun c => isWhiteSpace c = true)
                (Part000.input (Part000.mkState [0x20; 0x09; 0x3000]%N false [] [] false 10 257 0))
              \/ Part000.isBooting
                   (Part000.mkState [0x20; 0x09; 0x3000]%N false [] [] false 10 257 0) = true)
    by (left; repeat constructor).
  exact (conj H (proj1 X19_blank_or_booting_is_ignored (fun _ => true) _ H)).
Defined.

(** X20: a part_000 request leaves the input, the boot flag and the three
    sliders as they were, so a request repeated at once builds the same
    vectors again: after the second call [vectors] is what it was after the
    first. *)
Theorem X20_Part000_repeated_request :
  forall windowOpen1 windowOpen2 st,
    let st1 := fst (Part000.executeSearch windowOpen1 st) in
    let st2 := fst (Part000.executeSearch windowOpen2 st1) in
    Part000.input st1 = Part000.input st /\
    Part000.isBooting st1 = Part000.isBooting st /\
    Part000.vectorCount st1 = Part000.vectorCount st /\
    Part000.density st1 = Part000.density st /\
    Part000.pageOffset st1 = Part000.pageOffset st /\
    Part000.vectors st2 = Part000.vectors st1 /\
    snd (Part000.executeSearch windowOpen2 st1) = snd (Part000.executeSearch windowOpen1 st).
Proof.
  intros w1 w2 st st1 st2.
  destruct (Part000_executeSearch_keeps w1 st) as [Ki [Kb [Kv [Kd Kp]]]].
  fold st1 in Ki, Kb, Kv, Kd, Kp.
  repeat (split; [assumption|]).
  destruct (jseq (trim (Part000.input st)) [] || Part000.isBooting st) eqn:G.
  - assert (E1 : Part000.executeSearch w1 st = (st, Returned))
      by (unfold Part000.executeSearch; rewrite G; reflexivity).
    assert (E2 : Part000.executeSearch w2 st = (st, Returned))
      by (unfold Part000.executeSearch; rewrite G; reflexivity).
    unfold st2, st1. rewrite E1. cbn [fst snd]. rewrite E2. split; reflexivity.
  - apply orb_false_iff in G. destruct G as [Gi Gb].
    destruct (Part000_executeSearch_outcome w1 st Gi Gb) as [_ O1].
    assert (Gi1 : jseq (trim (Part000.input st1)) [] = false) by (rewrite Ki; exact Gi).
    assert (Gb1 : Part000.isBooting st1 = false) by (rewrite Kb; exact Gb).
    destruct (Part000_executeSearch_outcome w2 st1 Gi1 Gb1) as [_ O2].
    rewrite Ki, Kv, Kd, Kp in O2. fold st1 in O1. fold st2 in O2.
    destruct (Part000.buildVectors _ _ _ _) as [urls|];
      destruct O1 as [R1 V1]; destruct O2 as [R2 V2]; split; congruence.
Qed.

(** X21: the guard of part_000 looks at the trimmed raw input, not at the
    sanitized term: an input that is not blank but sanitizes to the empty
    string (control characters that are no white space) is searched all the
    same, with an empty term: every URL is
    [https://www.google.com/search?q=()%20(<clause>)&start=<n>], built with
    the decay factor 31. *)
Theorem X21_Part000_empty_term_is_searched :
  forall windowOpen st,
    jseq (trim (Part000.input st)) [] = false ->
    Part000.isBooting st = false ->
    sanitizeInput (Part000.input st) = [] ->
    let st' := fst (Part000.executeSearch windowOpen st) in
    snd (Part000.executeSearch windowOpen st) = Returned /\
    length (Part000.vectors st') = Z.to_nat (Part000.vectorCount st) /\
    forall i, (i < Z.to_nat (Part000.vectorCount st))%nat ->
      nth_error (Part000.vectors st') i =
      Some (lit "https://www.google.com/search?q=()%20("
            ++ encodedClause (Part000.iterationsOf (Part000.density st) 31 (Z.of_nat i))
            ++ lit ")&start=" ++ numberToString (Part000.pageOffset st * 10)).
Proof.
  intros w st Hin Hboot Hs st'.
  destruct (Part000_executeSearch_outcome w st Hin Hboot) as [_ Hout].
  rewrite Hs in Hout. change (processTerm []) with (@nil codeunit) in Hout.
  destruct (Part000_buildVectors_wellFormed []
              (Part000.vectorCount st) (Part000.density st) (Part000.pageOffset st) eq_refl)
    as [urls [E [Hlen Hnth]]].
  rewrite E in Hout. destruct Hout as [Hret Hvec]. fold st' in Hvec.
  rewrite Hvec. repeat split; [exact Hret | exact Hlen|].
  intros i Hi. rewrite (Hnth i Hi).
  exact (@Part000_vectorAt_written_out [] [] (Part000.density st) (Part000.pageOffset st)
           31%Z (Z.of_nat i) eq_refl).
Qed.

Lemma X21_Part000_empty_term_is_searched_witness :
  let st := Part000.mkState [0x01%N] false [] [] false 10 257 0 in
  jseq (trim (Part000.input st)) [] = false /\
  Part000.isBooting st = false /\
  sanitizeInput (Part000.input st) = [] /\
  snd (Part000.executeSearch (fun _ => true) st) = Returned /\
  length (Part000.vectors (fst (Part000.executeSearch (fun _ => true) st)))
  = Z.to_nat (Part000.vectorCount st).
Proof.
  intro st.
  assert (Hin : jseq (trim (Part000.input st)) [] = false) by reflexivity.
  assert (Hs : sanitizeInput (Part000.input st) = []) by reflexivity.
  destruct (X21_Part000_empty_term_is_searched (fun _ => true) st Hin eq_refl Hs)
    as [Hret [Hlen _]].
  exact (conj Hin (conj eq_refl (conj Hs (conj Hret Hlen)))).
Defined.

Ltac app_fields :=
  cbn [negb fst snd AppTsx.vectors AppTsx.logs AppTsx.addLog AppTsx.setVectors
       AppTsx.setInput AppTsx.input AppTsx.isBooting].

(** What an App.tsx request that passes the guard does. *)
Lemma AppTsx_executeSearch_outcome windowOpen st :
  jseq (trim (AppTsx.input st)) [] = false ->
  AppTsx.isBooting st = false ->
  let st' := fst (AppTsx.executeSearch windowOpen st) in
  AppTsx.isBooting st' = false /\
  match AppTsx.generateUrls (processTerm (sanitizeInput (AppTsx.input st))) with
  | Some urls =>
      snd (AppTsx.executeSearch windowOpen st) = Returned /\
      AppTsx.vectors st' = urls /\ AppTsx.input st' = []
  | None =>
      snd (AppTsx.executeSearch windowOpen st) = ThrewURIError /\
      AppTsx.vectors st' = AppTsx.vectors st /\ AppTsx.input st' = AppTsx.input st
  end.
Proof.
  intros Hin Hboot. unfold AppTsx.executeSearch. rewrite Hin, Hboot. cbn [orb].
  destruct (negb (jseq (AppTsx.input st) (sanitizeInput (AppTsx.input st))));
  destruct (negb (isSyntaxSafe (sanitizeInput (AppTsx.input st))));
  app_fields;
  destruct (AppTsx.generateUrls _) as [urls|];
  try destruct (windowOpen (nth_error urls 0));
  app_fields; repeat split; assumption.
Qed.

Lemma AppTsxV21_generateUrls_wellFormed term :
  isWellFormed term = true ->
  exists urls, AppTsxV21.generateUrls term = Some urls /\ length urls = 10%nat.
Proof.
  intro Wf. unfold AppTsxV21.generateUrls. rewrite AppTsxV21_vectorLoop_pushLoop.
  assert (T : forall k, (k < Z.to_nat AppTsxV21.maxUrls)%nat ->
              returns (AppTsxV21.vectorAt term (AppTsxV21.oOf term) (Z.of_nat k)) = true).
  { intros k _. unfold AppTsxV21.vectorAt.
    rewrite returns_option_map, encodeURIComponent_returns.
    etransitivity; [apply (finalQueryOf_wellFormed term), clause_plain | exact Wf]. }
  destruct (pushLoop_total _ T) as [urls [E [Hlen _]]].
  exists urls. split; [exact E | exact Hlen].
Qed.

(** X22: in both terminals of App.tsx a call that returned leaves nothing
    for an immediate second call to do: either the guard had stopped it, or
    the input was cleared at its end; the second call returns the state
    unchanged. *)
Theorem X22_AppTsx_second_call_is_ignored :
  (forall windowOpen1 windowOpen2 st,
     snd (AppTsx.executeSearch windowOpen1 st) = Returned ->
     AppTsx.executeSearch windowOpen2 (fst (AppTsx.executeSearch windowOpen1 st))
     = (fst (AppTsx.executeSearch windowOpen1 st), Returned)) /\
  (forall st,
     snd (AppTsxV21.executeSearch st) = Returned ->
     AppTsxV21.executeSearch (fst (AppTsxV21.executeSearch st))
     = (fst (AppTsxV21.executeSearch st), Returned)).
Proof.
  split.
  - intros w1 w2 st R.
    destruct (jseq (trim (AppTsx.input st)) [] || AppTsx.isBooting st) eqn:G.
    + assert (E : forall w, AppTsx.executeSearch w st = (st, Returned))
        by (intro w; unfold AppTsx.executeSearch; rewrite G; reflexivity).
      rewrite (E w1). cbn [fst]. apply E.
    + apply orb_false_iff in G. destruct G as [Gi Gb].
      destruct (AppTsx_executeSearch_outcome w1 st Gi Gb) as [_ O].
      destruct (AppTsx.generateUrls _) as [urls|].
      * destruct O as [_ [_ Hinput]].
        unfold AppTsx.executeSearch at 1. rewrite Hinput. reflexivity.
      * destruct O as [T _]. congruence.
  - intros st R. unfold AppTsxV21.executeSearch in *.
    destruct (jseq (trim (AppTsxV21.input st)) []) eqn:G.
    + cbn [fst]. rewrite G. reflexivity.
    + destruct (AppTsxV21.generateUrls (trim (AppTsxV21.input st))) as [urls|];
        [|discriminate]. reflexivity.
Qed.

Lemma X22_AppTsx_second_call_is_ignored_witness :
  let st := AppTsxV21.mkState (lit "test") [] in
  snd (AppTsxV21.executeSearch st) = Returned /\
  AppTsxV21.executeSearch (fst (AppTsxV21.executeSearch st))
  = (fst (AppTsxV21.executeSearch st), Returned).
Proof.
  intro st.
  assert (R : snd (AppTsxV21.executeSearch st) = Returned) by (vm_compute; reflexivity).
  exact (conj R (proj2 X22_AppTsx_second_call_is_ignored st R)).
Defined.

(** X23: in the first terminal a request on a non-blank input without an
    unpaired surrogate always logs the same four entries, in this order:
    the trimmed term, [GENERATED 10 COMPLEX PATTERNS], the launch notice and
    the hint; the test [urls.length > 1] that guards the hint never fails.
    The input is cleared. *)
Theorem X23_AppTsxV21_request :
  forall st,
    jseq (trim (AppTsxV21.input st)) [] = false ->
    isWellFormed (AppTsxV21.input st) = true ->
    AppTsxV21.executeSearch st =
    (AppTsxV21.mkState []
       (AppTsxV21.logs st ++
        [mkLog (lit "INITIALIZING SEARCH: " ++ trim (AppTsxV21.input st)) user;
         mkLog (lit "GENERATED 10 COMPLEX PATTERNS") info;
         mkLog (lit "LAUNCHING PORTAL 1...") info;
         mkLog (lit "HINT: SYSTEM PREPARED 10 VARIANTS. PORTAL 1 IS ACTIVE.") info]),
     Returned).
Proof.
  intros st Hin Wf. unfold AppTsxV21.executeSearch. rewrite Hin.
  destruct (AppTsxV21_generateUrls_wellFormed _ (trim_wellFormed _ Wf)) as [urls [E Hlen]].
  rewrite E, Hlen.
  change (1 <? Z.of_nat 10)%Z with true. change (numberToString (Z.of_nat 10)) with (lit "10").
  unfold AppTsxV21.setInput, AppTsxV21.addLog. cbn [AppTsxV21.logs AppTsxV21.input].
  repeat rewrite <- app_assoc. reflexivity.
Qed.

Lemma X23_AppTsxV21_request_witness :
  jseq (trim (AppTsxV21.input (AppTsxV21.setInput (lit " red fox ") AppTsxV21.initialState))) []
  = false /\
  isWellFormed (AppTsxV21.input (AppTsxV21.setInput (lit " red fox ") AppTsxV21.initialState))
  = true /\
  snd (AppTsxV21.executeSearch (AppTsxV21.setInput (lit " red fox ") AppTsxV21.initialState))
  = Returned.
Proof.
  assert (Hin : jseq (trim (AppTsxV21.input
                  (AppTsxV21.setInput (lit " red fox ") AppTsxV21.initialState))) [] = false)
    by reflexivity.
  split; [exact Hin|]. split; [reflexivity|].
  rewrite (X23_AppTsxV21_request _ Hin eq_refl). reflexivity.
Defined.

(** ** The boot sequence *)

Lemma Part000Boot_fire_done st : Part000Boot.fire (st, None) = (st, None).
Proof. reflexivity. Qed.

Ltac boot_run :=
  cbv beta iota zeta delta
    [Nat.iter nat_rect Part000Boot.mount Part000Boot.fire Part000Boot.runSequence
     Part000.addLog Part000Boot.setIsBooting bootEntries
     nth_error Part000Boot.sequence fst snd Nat.add firstn map
     Part000.input Part000.isBooting Part000.logs Part000.vectors Part000.isExecuting
     Part000.vectorCount Part000.density Part000.pageOffset];
  repeat rewrite <- app_assoc.

Lemma Part000Boot_after_four st :
  Nat.iter 4 Part000Boot.fire (Part000Boot.mount st) =
  (Part000.mkState (Part000.input st) false (Part000.logs st ++ bootEntries 4)
     (Part000.vectors st) (Part000.isExecuting st) (Part000.vectorCount st)
     (Part000.density st) (Part000.pageOffset st), None).
Proof. boot_run. reflexivity. Qed.

(** X24: the boot of part_000 takes the mount and four timer turns: after
    [k] turns, [k] below 4, the first [k + 1] boot entries are logged in
    order, a timer is armed and the boot flag is untouched, so that a
    request made while the component boots is ignored; from the fourth
    turn on all four entries are logged, no timer is armed and the boot
    flag is off, whatever fires later. *)
Theorem X24_Part000_boot :
  forall st,
    (forall k, (k < 4)%nat ->
       let run := Nat.iter k Part000Boot.fire (Part000Boot.mount st) in
       Part000.logs (fst run) = Part000.logs st ++ bootEntries (S k) /\
       snd run = Some (S k) /\
       Part000.isBooting (fst run) = Part000.isBooting st /\
       (Part000.isBooting st = true ->
        forall windowOpen,
          Part000.executeSearch windowOpen (fst run) = (fst run, Returned))) /\
    (forall k, (4 <= k)%nat ->
       let run := Nat.iter k Part000Boot.fire (Part000Boot.mount st) in
       Part000.logs (fst run) = Part000.logs st ++ bootEntries 4 /\
       snd run = None /\
       Part000.isBooting (fst run) = false).
Proof.
  intro st. split.
  - intros k Hk run.
    assert (Hrun : Part000.logs (fst run) = Part000.logs st ++ bootEntries (S k) /\
                   snd run = Some (S k) /\
                   Part000.isBooting (fst run) = Part000.isBooting st).
    { unfold run. destruct k as [|[|[|[|k]]]]; [| | | |lia];
        boot_run; repeat split. }
    destruct Hrun as [Hl [Hs Hb]]. repeat split; try assumption.
    intros Boot w. unfold Part000.executeSearch.
    rewrite Hb, Boot, orb_true_r. reflexivity.
  - intros k Hk run. unfold run.
    replace k with ((k - 4) + 4)%nat by lia. rewrite Nat.iter_add, Part000Boot_after_four.
    induction (k - 4)%nat as [|m IH]; [repeat split|].
    rewrite Nat.iter_succ.
    destruct (Nat.iter m Part000Boot.fire _) as [s [t|]] eqn:E;
      cbn [fst snd] in IH; destruct IH as [Hl [Hs Hb]]; [discriminate|].
    rewrite Part000Boot_fire_done. cbn [fst snd]. repeat split; assumption.
Qed.

Lemma X24_Part000_boot_witness :
  (2 < 4)%nat /\
  snd (Nat.iter 2 Part000Boot.fire (Part000Boot.mount Part000Boot.initialState)) = Some 3%nat /\
  Part000.isBooting Part000Boot.initialState = true /\
  Part000.executeSearch (fun _ => true)
    (fst (Nat.iter 2 Part000Boot.fire (Part000Boot.mount Part000Boot.initialState)))
  = (fst (Nat.iter 2 Part000Boot.fire (Part000Boot.mount Part000Boot.initialState)), Returned).
Proof.
  assert (H : (2 < 4)%nat) by lia.
  destruct (proj1 (X24_Part000_boot Part000Boot.initialState) 2%nat H) as [_ [Hs [_ Hx]]].
  exact (conj H (conj Hs (conj eq_refl (Hx eq_refl (fun _ => true))))).
Defined.

(** ** Which vectors coincide *)

Lemma encodedFragment_length ii : (16 <= length (encodedFragment ii))%nat.
Proof. unfold encodedFragment. rewrite !length_app. cbn. lia. Qed.

Lemma encodedClause_succ n :
  (1 <= n)%Z ->
  (length (encodedClause n) < length (encodedClause (n + 1)))%nat.
Proof.
  intro H. unfold encodedClause.
  replace (n + 1 - 1)%Z with n by lia.
  replace (Z.to_nat n) with (S (Z.to_nat (n - 1))) by lia.
  rewrite upto_snoc, map_app, concat_app, Z.add_0_l, Z2Nat.id by lia.
  cbn [map concat]. rewrite app_nil_r.
  unfold encodedFragment. rewrite !length_app. cbn [length lit map list_ascii_of_string].
  lia.
Qed.

Lemma encodedClause_length_mono n m :
  (1 <= n < m)%Z -> (length (encodedClause n) < length (encodedClause m))%nat.
Proof.
  intros [Hn Hm].
  replace m with (n + 1 + Z.of_nat (Z.to_nat (m - n - 1)))%Z by lia.
  induction (Z.to_nat (m - n - 1)) as [|d IH].
  - rewrite Z.add_0_r. apply encodedClause_succ, Hn.
  - etransitivity; [exact IH|].
    replace (n + 1 + Z.of_nat (S d))%Z with (n + 1 + Z.of_nat d + 1)%Z by lia.
    apply encodedClause_succ. lia.
Qed.

Lemma Part000_vectorAt_same term q density pageOffset decayFactor i j :
  encodeURIComponent term = Some q ->
  Part000.vectorAt term density pageOffset decayFactor i =
  Part000.vectorAt term density pageOffset decayFactor j ->
  Part000.iterationsOf density decayFactor i = Part000.iterationsOf density decayFactor j.
Proof.
  intros Hq E.
  rewrite !(@Part000_vectorAt_written_out term q density pageOffset decayFactor _ Hq) in E.
  apply Some_eq in E. apply (f_equal (@length codeunit)) in E.
  rewrite !length_app in E.
  set (a := Part000.iterationsOf density decayFactor i) in *.
  set (b := Part000.iterationsOf density decayFactor j) in *.
  assert (Ha : (1 <= a)%Z) by (unfold a, Part000.iterationsOf; lia).
  assert (Hb : (1 <= b)%Z) by (unfold b, Part000.iterationsOf; lia).
  destruct (Z.lt_trichotomy a b) as [L | [Eq | L]]; [|exact Eq|].
  - pose proof (encodedClause_length_mono (conj Ha L)). lia.
  - pose proof (encodedClause_length_mono (conj Hb L)). lia.
Qed.

(** X25: two vectors of a part_000 list are the same URL exactly when the
    earlier one has already reached the floor of one site clause; before
    the floor every vector differs from all later ones. *)
Theorem X25_Part000_duplicate_vectors :
  forall term vectorCount density pageOffset urls i j,
    Part000.buildVectors term vectorCount density pageOffset = Some urls ->
    (i < j < Z.to_nat vectorCount)%nat ->
    (nth_error urls i = nth_error urls j <->
     (density - Z.of_nat i * Part000.decayFactorOf term <= 1)%Z).
Proof.
  intros term vectorCount density pageOffset urls i j E [Hij Hj].
  set (k := Part000.decayFactorOf term).
  assert (Hk : (1 <= k)%Z) by (unfold k, Part000.decayFactorOf; lia).
  pose proof E as E'. unfold Part000.buildVectors in E'.
  rewrite Part000_vectorLoop_pushLoop in E'. fold k in E'.
  apply pushLoop_result in E'. destruct E' as [urls' [Eu [Hlen Hnth]]].
  cbn [app] in Eu. subst urls'.
  assert (Ni : nth_error urls i = Part000.vectorAt term density pageOffset k (Z.of_nat i))
    by (rewrite (Hnth i) by lia; reflexivity).
  assert (Nj : nth_error urls j = Part000.vectorAt term density pageOffset k (Z.of_nat j))
    by (rewrite (Hnth j) by lia; reflexivity).
  rewrite Ni, Nj.
  assert (Hm : (Z.of_nat i * k < Z.of_nat j * k)%Z) by nia.
  split.
  - intro Eq.
    assert (Wf : isWellFormed term = true).
    { rewrite <- (Part000_vectorAt_returns term density pageOffset k (Z.of_nat i)), <- Ni.
      destruct (nth_error urls i) eqn:N; [reflexivity|].
      apply nth_error_None in N. lia. }
    destruct (encodeURIComponent_wellFormed term Wf) as [q Hq].
    pose proof (Part000_vectorAt_same _ _ _ _ _ _ Hq Eq) as It.
    unfold Part000.iterationsOf in It. lia.
  - intro Fl. unfold Part000.vectorAt, Part000.iterationsOf.
    rewrite !Z.max_r by lia. reflexivity.
Qed.

Lemma X25_Part000_duplicate_vectors_witness :
  exists urls,
    Part000.buildVectors (lit "test") 20 128 0 = Some urls /\
    (5 < 19 < Z.to_nat 20)%nat /\
    (nth_error urls 5 = nth_error urls 19 <->
     (128 - Z.of_nat 5 * Part000.decayFactorOf (lit "test") <= 1)%Z).
Proof.
  assert (H : (5 < 19 < Z.to_nat 20)%nat) by (cbn; lia).
  eexists. split; [vm_compute; reflexivity|]. split; [exact H|].
  eapply (@X25_Part000_duplicate_vectors (lit "test") 20%Z 128%Z 0%Z _ 5%nat 19%nat);
    [vm_compute; reflexivity | exact H].
Defined.

(** ** The query of a balanced term *)

Lemma scan_balanced_prefix t b :
  forall k, scan t k = true ->
  forall m, (0 <= k)%Z -> (0 <= m)%Z -> scan (t ++ b) (k + m) = scan b m.
Proof.
  induction t as [|c t IH]; intros k H m Hk Hm.
  - cbn [scan] in H. apply Z.eqb_eq in H. subst. reflexivity.
  - cbn [app scan] in *.
    destruct (k + depthStep c <? 0)%Z eqn:N; [discriminate|].
    apply Z.ltb_ge in N.
    replace (k + m + depthStep c)%Z with (k + depthStep c + m)%Z by lia.
    destruct (k + depthStep c + m <? 0)%Z eqn:N'; [apply Z.ltb_lt in N'; lia|].
    apply IH; assumption.
Qed.

Lemma numberToString_forall (P : codeunit -> Prop) :
  (forall c, (48 <= c <= 57)%N -> P c) -> P 45%N ->
  forall z, Forall P (numberToString z).
Proof.
  intros Hd Hm z.
  assert (D : forall d, Forall P (lit (NilEmpty.string_of_uint d))).
  { induction d; cbn [NilEmpty.string_of_uint]; try rewrite lit_cons;
      constructor; first [apply Hd; cbn; lia | assumption]. }
  assert (Z0 : forall d, Forall P (lit (NilZero.string_of_uint d))).
  { intro d.
    assert (H : NilZero.string_of_uint d = "0"%string
                \/ NilZero.string_of_uint d = NilEmpty.string_of_uint d)
      by (destruct d; auto).
    destruct H as [-> | ->]; [|apply D].
    repeat constructor. apply Hd. cbn. lia. }
  unfold numberToString, NilZero.string_of_int.
  destruct (Z.to_int z) as [d|d]; [apply Z0|].
  rewrite lit_cons. constructor; [exact Hm | apply Z0].
Qed.

Lemma Forall_noParen_count s : Forall (fun c => isParen c = false) s -> parenCount s = 0%nat.
Proof.
  unfold parenCount. induction 1 as [|c s Hc _ IH]; [reflexivity|].
  cbn [filter]. rewrite Hc. exact IH.
Qed.

Lemma clause_noParen bound :
  Forall (fun c => isParen c = false) (slice (siteClauses bound) 0 (-1)).
Proof.
  rewrite slice_drop_last, siteClauses_concat. apply Forall_removelast.
  induction (upto (Z.to_nat bound) 0%Z) as [|ii l IH]; [constructor|].
  cbn [map concat]. apply Forall_app. split; [|exact IH].
  unfold fragment. apply Forall_app. split; [repeat constructor|].
  apply Forall_app. split; [|repeat constructor].
  apply numberToString_forall; [|reflexivity].
  intros c Hc. unfold isParen.
  apply orb_false_iff. split; apply N.eqb_neq; lia.
Qed.

Lemma scan_cons c s k :
  scan (c :: s) k =
  if (k + depthStep c <? 0)%Z then false else scan s (k + depthStep c)%Z.
Proof. reflexivity. Qed.

(** X26: when the processed term is balanced the whole query
    "(term) (clause)" is balanced, in part_000 as in App.tsx: the clause
    string holds no parenthesis of its own. *)
Theorem X26_balanced_term_balanced_query :
  forall term bound,
    isSyntaxSafe term = true ->
    isSyntaxSafe (finalQueryOf term (slice (siteClauses bound) 0 (-1))) = true.
Proof.
  intros term bound Safe. rewrite isSyntaxSafe_scan in *.
  unfold finalQueryOf.
  change (lit "(" ++ term ++ lit ") (" ++ slice (siteClauses bound) 0 (-1) ++ lit ")")
    with (40%N :: (term ++ (41%N :: 32%N :: 40%N
                              :: (slice (siteClauses bound) 0 (-1) ++ [41%N])))).
  rewrite scan_cons. change (0 + depthStep 40%N)%Z with (0 + 1)%Z.
  change (0 + 1 <? 0)%Z with false. cbv iota.
  rewrite (@scan_balanced_prefix term _ 0%Z Safe 1%Z) by lia.
  rewrite !scan_cons.
  change (1 + depthStep 41%N)%Z with 0%Z. change (0 + depthStep 32%N)%Z with 0%Z.
  change (0 + depthStep 40%N)%Z with (0 + 1)%Z.
  change (0 <? 0)%Z with false. change (0 + 1 <? 0)%Z with false. cbv iota.
  assert (Hq : scan (slice (siteClauses bound) 0 (-1)) 0 = true).
  { rewrite scan_no_paren by (apply Forall_noParen_count, clause_noParen). reflexivity. }
  rewrite (@scan_balanced_prefix _ _ 0%Z Hq 1%Z) by lia.
  reflexivity.
Qed.

Lemma X26_balanced_term_balanced_query_witness :
  isSyntaxSafe (lit "(a(b)c)") = true /\
  isSyntaxSafe (finalQueryOf (lit "(a(b)c)") (slice (siteClauses 3) 0 (-1))) = true.
Proof.
  split; [reflexivity|]. apply X26_balanced_term_balanced_query. reflexivity.
Defined.
